(** * homebridge-philips-somneo: the accessory handler and the discovery platform

    A shallow embedding of [platformAccessory.ts] (class [SomneoAccessory])
    and [platform.ts] (class [SomneoPlatform]).

    The plugin is event driven: the host invokes characteristic handlers,
    timers fire, promises settle, SSDP responses arrive.  Every handler is
    modelled as a function from the object's state to its new state together
    with the list of effects it performs on the outside world, in program
    order.  Promise continuations ([.then] / [.catch]) are handlers of their
    own, run when the environment delivers the settlement. *)

From Stdlib Require Import List String Bool ZArith QArith Permutation.
Import ListNotations.
Open Scope string_scope.
Open Scope list_scope.

(** ** JavaScript values

    [response.data], [CharacteristicValue] and the parsed XML are untyped at
    run time.  Numbers are only ever stored and handed back, never computed
    with, so a rational stands for the double it denotes.  [JsError] is an
    [Error] object, as thrown or as a promise's rejection reason; [JsArray]
    is an array of values. *)
#[warnings="-register-all"]
Inductive JsValue : Type :=
| JsUndefined
| JsNull
| JsBool (b : bool)
| JsNumber (q : Q)
| JsString (s : string)
| JsError (message : string)
| JsArray (items : list JsValue).

(** Truthiness of a string, as used by [if (x)]: only the empty string is
    falsy. *)
Definition string_truthy (s : string) : bool := negb (s =? "").

(** Truthiness of a value: [undefined], [null], [false], [0] and the empty
    string are falsy; objects, arrays included (the empty one too), are
    truthy. *)
Definition js_truthy (v : JsValue) : bool :=
  match v with
  | JsUndefined | JsNull => false
  | JsBool b => b
  | JsNumber q => negb (Qeq_bool q 0)
  | JsString s => string_truthy s
  | JsError _ | JsArray _ => true
  end.

(** [Array.prototype.find]: the first element satisfying the predicate, or
    [undefined] (here [None]). *)
Definition array_find {A : Type} (p : A -> bool) (l : list A) : option A :=
  List.find p l.

(** [rinfo] of an SSDP response; only [address] is read by the plugin. *)
Record RemoteInfo : Type := mkRemoteInfo {
  address : string;
  family : string;
  port : Z
}.

(** [result.root.device[i]] of the parsed UPnP description: each field
    holds what the parser delivers under that key. *)
Record UpnpDevice : Type := mkUpnpDevice {
  friendlyName : JsValue;
  manufacturer : JsValue;
  modelName : JsValue;
  UDN : JsValue
}.

(** [accessory.context] as the plugin fills it. *)
Record Context : Type := mkContext {
  device : RemoteInfo;
  upnpData : UpnpDevice
}.

(** The host's [PlatformAccessory]. *)
Record PlatformAccessory : Type := mkPlatformAccessory {
  displayName : JsValue;
  UUID : string;
  context : Context
}.

(** ** The accessory handler *)
Module SomneoAccessory.

(** [private somneoState = { On, Brightness, Temperature, Humidity,
    LightLevel, Sound }] *)
Record SomneoState : Type := mkState {
  On : JsValue;
  Brightness : JsValue;
  Temperature : JsValue;
  Humidity : JsValue;
  LightLevel : JsValue;
  Sound : JsValue
}.

(** The field initialiser of [somneoState]. *)
Definition somneoState_init : SomneoState :=
  {| On := JsBool false;
     Brightness := JsNumber 100;
     Temperature := JsNumber 0;
     Humidity := JsNumber 0;
     LightLevel := JsNumber 0;
     Sound := JsNumber 0 |}.

(** An instance: the accessory record it was built for and its state. *)
Record t : Type := mkInstance {
  accessory : PlatformAccessory;
  somneoState : SomneoState
}.

Inductive ServiceId : Type :=
| AccessoryInformation | Lightbulb | TemperatureSensor | HumiditySensor
| LightSensor.

Inductive CharacteristicId : Type :=
| Manufacturer | Model | SerialNumber | Name | COn | CBrightness
| CurrentTemperature | CurrentRelativeHumidity | CurrentAmbientLightLevel.

Inductive HandlerKind : Type := OnGet | OnSet.

(** What a handler does to the outside world. *)
Inductive Effect : Type :=
| LogInfo (args : list JsValue)
| EnsureService (s : ServiceId)
    (* getService(s) || addService(s) *)
| SetCharacteristic (s : ServiceId) (c : CharacteristicId) (v : JsValue)
| RegisterHandler (s : ServiceId) (c : CharacteristicId) (k : HandlerKind)
| UpdateValue (s : ServiceId) (c : CharacteristicId) (v : JsValue)
| HttpGet (endpoint : string)
| SetInterval (ms : Z)
    (* setInterval(() => this.updateSensorData(), ms) *)
| ClearInterval
    (* clearInterval on that timer: offered by the runtime *)
| Callback (err : JsValue) (value : option JsValue).
    (* callback(null) has no value, callback(null, v) has one *)

(** [response.data] of the sensor poll: either a value with no properties
    at all ([null] / [undefined], on which a property read throws) or an
    object, read at the four keys (an absent key reads [undefined]). *)
Inductive ResponseData : Type :=
| DataNullish
| DataObject (mstmp msrhu mslux mssnd : JsValue).

Definition sensor_endpoint (a : PlatformAccessory) : string :=
  ("https://" ++ address (device (context a))
     ++ "/di/v1/products/1/wusrd")%string.

(** [updateSensorData()] up to the point where the promise is pending: it
    issues the GET and returns; the state is not touched. *)
Definition updateSensorData (i : t) : t * list Effect :=
  (i, [HttpGet (sensor_endpoint (accessory i))]).

(** The [.then] continuation of [updateSensorData].  On a nullish
    [response.data] the first property read throws before any assignment,
    and the chained [.catch] logs the error. *)
Definition updateSensorData_then (i : t) (data : ResponseData)
  : t * list Effect :=
  match data with
  | DataNullish =>
      (i, [LogInfo [JsString "Updating Sensors"];
           LogInfo [JsError "TypeError"]])
  | DataObject mstmp msrhu mslux mssnd =>
      let st := somneoState i in
      let st' := {| On := On st;
                    Brightness := Brightness st;
                    Temperature := mstmp;
                    Humidity := msrhu;
                    LightLevel := mslux;
                    Sound := mssnd |} in
      ({| accessory := accessory i; somneoState := st' |},
       [LogInfo [JsString "Updating Sensors"];
        UpdateValue TemperatureSensor CurrentTemperature (Temperature st');
        UpdateValue HumiditySensor CurrentRelativeHumidity (Humidity st');
        UpdateValue LightSensor CurrentAmbientLightLevel (LightLevel st')])
  end.

(** The [.catch] continuation of [updateSensorData]. *)
Definition updateSensorData_catch (i : t) (error : JsValue)
  : t * list Effect :=
  (i, [LogInfo [error]]).

Definition getTemperature (i : t) : t * list Effect :=
  let currentTemperature := Temperature (somneoState i) in
  (i, [LogInfo [JsString "Get Temperature ->"; currentTemperature];
       Callback JsNull (Some currentTemperature)]).

Definition getHumidity (i : t) : t * list Effect :=
  let currentHumidity := Humidity (somneoState i) in
  (i, [LogInfo [JsString "Get Humidity ->"; currentHumidity];
       Callback JsNull (Some currentHumidity)]).

Definition getLightLevel (i : t) : t * list Effect :=
  let currentLightLevel := LightLevel (somneoState i) in
  (i, [LogInfo [JsString "Get Light Level ->"; currentLightLevel];
       Callback JsNull (Some currentLightLevel)]).

Definition setOn (i : t) (value : JsValue) : t * list Effect :=
  let st := somneoState i in
  ({| accessory := accessory i;
      somneoState := {| On := value;
                        Brightness := Brightness st;
                        Temperature := Temperature st;
                        Humidity := Humidity st;
                        LightLevel := LightLevel st;
                        Sound := Sound st |} |},
   [LogInfo [JsString "Set Characteristic On ->"; value];
    Callback JsNull None]).

Definition getOn (i : t) : t * list Effect :=
  let isOn := On (somneoState i) in
  (i, [LogInfo [JsString "Get Characteristic On ->"; isOn];
       Callback JsNull (Some isOn)]).

Definition setBrightness (i : t) (value : JsValue) : t * list Effect :=
  let st := somneoState i in
  ({| accessory := accessory i;
      somneoState := {| On := On st;
                        Brightness := value;
                        Temperature := Temperature st;
                        Humidity := Humidity st;
                        LightLevel := LightLevel st;
                        Sound := Sound st |} |},
   [LogInfo [JsString "Set Characteristic Brightness -> "; value];
    Callback JsNull None]).

(** The period handed to [setInterval]: [60 * 1000]. *)
Definition poll_period_ms : Z := 60 * 1000.

(** [new SomneoAccessory(platform, accessory)]. *)
Definition constructor (a : PlatformAccessory) : t * list Effect :=
  let i0 := {| accessory := a; somneoState := somneoState_init |} in
  let '(i1, poll) := updateSensorData i0 in
  (i1,
   [LogInfo [JsString "Somneo IP ->";
             JsString (address (device (context a)))];
    SetCharacteristic AccessoryInformation Manufacturer
      (manufacturer (upnpData (context a)));
    SetCharacteristic AccessoryInformation Model
      (modelName (upnpData (context a)));
    SetCharacteristic AccessoryInformation SerialNumber
      (UDN (upnpData (context a)));
    EnsureService Lightbulb;
    SetCharacteristic Lightbulb Name (friendlyName (upnpData (context a)));
    RegisterHandler Lightbulb COn OnSet;
    RegisterHandler Lightbulb COn OnGet;
    RegisterHandler Lightbulb CBrightness OnSet;
    EnsureService TemperatureSensor;
    RegisterHandler TemperatureSensor CurrentTemperature OnGet;
    EnsureService HumiditySensor;
    RegisterHandler HumiditySensor CurrentRelativeHumidity OnGet;
    EnsureService LightSensor;
    RegisterHandler LightSensor CurrentAmbientLightLevel OnGet]
   ++ poll
   ++ [SetInterval poll_period_ms]).

(** *** The instance as a reactive system

    What the environment can deliver to a constructed instance: the interval
    timer firing, the settlement of a pending poll, and the host's get / set
    requests for the registered characteristics. *)
Inductive Event : Type :=
| TimerFired
| PollResolved (data : ResponseData)
| PollRejected (error : JsValue)
| GetOn
| SetOn (value : JsValue)
| SetBrightness (value : JsValue)
| GetTemperature
| GetHumidity
| GetLightLevel.

Definition step (i : t) (e : Event) : t * list Effect :=
  match e with
  | TimerFired => updateSensorData i
  | PollResolved data => updateSensorData_then i data
  | PollRejected error => updateSensorData_catch i error
  | GetOn => getOn i
  | SetOn value => setOn i value
  | SetBrightness value => setBrightness i value
  | GetTemperature => getTemperature i
  | GetHumidity => getHumidity i
  | GetLightLevel => getLightLevel i
  end.

(** Delivering a sequence of events, collecting the effects in order. *)
Fixpoint run (i : t) (es : list Event) : t * list Effect :=
  match es with
  | [] => (i, [])
  | e :: es' =>
      let '(i1, fx1) := step i e in
      let '(i2, fx2) := run i1 es' in
      (i2, fx1 ++ fx2)
  end.

(** A poll that delivered an object: the only event that assigns the sensor
    fields. *)
Definition overwrites_sensors (e : Event) : bool :=
  match e with
  | PollResolved (DataObject _ _ _ _) => true
  | _ => false
  end.

Definition is_http_get (fx : Effect) : bool :=
  match fx with HttpGet _ => true | _ => false end.

Definition is_log (fx : Effect) : bool :=
  match fx with LogInfo _ => true | _ => false end.

Definition is_timer_op (fx : Effect) : bool :=
  match fx with SetInterval _ | ClearInterval => true | _ => false end.

(** The values pushed to the characteristic layer by a list of effects. *)
Definition pushed (fxs : list Effect)
  : list (ServiceId * CharacteristicId * JsValue) :=
  flat_map (fun fx => match fx with
                      | UpdateValue s c v => [(s, c, v)]
                      | _ => []
                      end) fxs.

(** The values handed to the host through a get / set callback. *)
Definition answered (fxs : list Effect) : list (JsValue * option JsValue) :=
  flat_map (fun fx => match fx with
                      | Callback err v => [(err, v)]
                      | _ => []
                      end) fxs.

(** Overwriting the [Sound] field only. *)
Definition with_Sound (i : t) (v : JsValue) : t :=
  let st := somneoState i in
  {| accessory := accessory i;
     somneoState := {| On := On st;
                       Brightness := Brightness st;
                       Temperature := Temperature st;
                       Humidity := Humidity st;
                       LightLevel := LightLevel st;
                       Sound := v |} |}.

(** Two instances that agree on everything but the stored sound level. *)
Definition agree_but_Sound (i j : t) : Prop :=
  accessory i = accessory j
  /\ On (somneoState i) = On (somneoState j)
  /\ Brightness (somneoState i) = Brightness (somneoState j)
  /\ Temperature (somneoState i) = Temperature (somneoState j)
  /\ Humidity (somneoState i) = Humidity (somneoState j)
  /\ LightLevel (somneoState i) = LightLevel (somneoState j).

(** The sensor fields, as the three read handlers see them. *)
Definition readings (i : t) : JsValue * JsValue * JsValue :=
  (Temperature (somneoState i), Humidity (somneoState i),
   LightLevel (somneoState i)).

(** The poll response of the device used as the running example:
    [{mstmp: 21.5, msrhu: 45, mslux: 120, mssnd: 0}]. *)
Definition sample_poll : ResponseData :=
  DataObject (JsNumber 21.5) (JsNumber 45) (JsNumber 120) (JsNumber 0).

(** *** Classifying events *)

Definition is_timer (e : Event) : bool :=
  match e with TimerFired => true | _ => false end.

(** The host's get / set requests, each of which comes with a callback. *)
Definition is_request (e : Event) : bool :=
  match e with
  | GetOn | SetOn _ | SetBrightness _
  | GetTemperature | GetHumidity | GetLightLevel => true
  | _ => false
  end.

Definition writes_On (e : Event) : bool :=
  match e with SetOn _ => true | _ => false end.

(** The value of the last power write of a sequence, [d] when there is
    none; likewise for brightness writes and for the bodies of successful
    polls. *)
Definition last_SetOn (es : list Event) (d : JsValue) : JsValue :=
  fold_left (fun acc e => match e with SetOn v => v | _ => acc end) es d.

Definition last_SetBrightness (es : list Event) (d : JsValue) : JsValue :=
  fold_left (fun acc e => match e with SetBrightness v => v | _ => acc end)
            es d.

Definition last_poll (es : list Event)
    (d : JsValue * JsValue * JsValue * JsValue)
  : JsValue * JsValue * JsValue * JsValue :=
  fold_left (fun acc e => match e with
                          | PollResolved (DataObject t h l s) => (t, h, l, s)
                          | _ => acc
                          end) es d.

(** Overwriting the [Brightness] field only. *)
Definition with_Brightness (i : t) (v : JsValue) : t :=
  let st := somneoState i in
  {| accessory := accessory i;
     somneoState := {| On := On st;
                       Brightness := v;
                       Temperature := Temperature st;
                       Humidity := Humidity st;
                       LightLevel := LightLevel st;
                       Sound := Sound st |} |}.

(** Two instances that agree on everything but the stored brightness. *)
Definition agree_but_Brightness (i j : t) : Prop :=
  accessory i = accessory j
  /\ On (somneoState i) = On (somneoState j)
  /\ Temperature (somneoState i) = Temperature (somneoState j)
  /\ Humidity (somneoState i) = Humidity (somneoState j)
  /\ LightLevel (somneoState i) = LightLevel (somneoState j)
  /\ Sound (somneoState i) = Sound (somneoState j).

End SomneoAccessory.

(** ** The discovery platform *)
Module SomneoPlatform.

(** The two mutable fields of the class. *)
Record t : Type := mkPlatform {
  accessories : list PlatformAccessory;
  registered_usns : list string
}.

(** What the platform writes to its log. *)
Inductive LogLine : Type :=
| LoadingFromCache (name : JsValue)
| RestoringFromCache (name : JsValue)
| RestoringUUID (uuid : string)
| AddingNewAccessory (uuid : string)
| RootDevices (device : option (list UpnpDevice))
| LoggedError (error : JsValue).

(** The variables the [.then] closure of a description fetch captures. *)
Record Pending : Type := mkPending {
  p_uuid : string;
  p_rinfo : RemoteInfo
}.

Inductive Effect : Type :=
| LogInfo (line : LogLine)
| NewSomneoAccessory (i : SomneoAccessory.t)
    (fx : list SomneoAccessory.Effect)
| HttpGet (endpoint : string) (k : Pending)
| RegisterPlatformAccessories (plugin platform : string)
    (accs : list PlatformAccessory).

(** The [result] that [xml2js.parseString] hands to its callback, seen
    through the property reads the callback makes. *)
Inductive XmlResult : Type :=
| NoResult
    (* result is undefined or null: the document did not parse *)
| NoRoot
    (* result.root is undefined *)
| RootDevice (device : option (list UpnpDevice)).
    (* result.root.device; None when the property is absent *)

(** A device entry of the description document as it is written: the texts
    of its child elements named friendlyName, manufacturer, modelName and
    UDN, in document order. *)
Record DeviceElement : Type := mkDeviceElement {
  friendlyName_texts : list string;
  manufacturer_texts : list string;
  modelName_texts : list string;
  UDN_texts : list string
}.

(** [xml2js.parseString(response.data, callback)] is called without
    options, so with the parser's default [explicitArray]: the children
    named [n] of an element are delivered under the key [n] as an array,
    one item per child, also when there is only one child - which is why
    the callback reads [result.root.device[0]].  Without such a child the
    key is absent and reads [undefined]. *)
Definition xml2js_children (texts : list string) : JsValue :=
  match texts with
  | [] => JsUndefined
  | _ :: _ => JsArray (map JsString texts)
  end.

(** The device entry as the callback finds it at [result.root.device[i]]. *)
Definition xml2js_device (e : DeviceElement) : UpnpDevice :=
  {| friendlyName := xml2js_children (friendlyName_texts e);
     manufacturer := xml2js_children (manufacturer_texts e);
     modelName := xml2js_children (modelName_texts e);
     UDN := xml2js_children (UDN_texts e) |}.

Definition description_endpoint (rinfo : RemoteInfo) : string :=
  ("https://" ++ address rinfo ++ "/upnp/description.xml")%string.

Section WithHost.

(** [api.hap.uuid.generate], the host's hash from identifiers to UUIDs, and
    the two names exported by [settings.ts]: parameters of the platform. *)
Variable generate : string -> string.
Variables PLUGIN_NAME PLATFORM_NAME : string.

(** [configureAccessory(accessory)] *)
Definition configureAccessory (p : t) (a : PlatformAccessory)
  : t * list Effect :=
  ({| accessories := accessories p ++ [a];
      registered_usns := registered_usns p |},
   [LogInfo (LoadingFromCache (displayName a))]).

(** The guard of the response handler:
    [if (this.registered_usns.find(usn => usn === headers.USN))].
    [find] yields the stored string itself, and the [if] tests that
    string. *)
Definition usn_already_registered (p : t) (USN : string) : bool :=
  match array_find (fun usn => usn =? USN) (registered_usns p) with
  | Some usn => string_truthy usn
  | None => false
  end.

(** The ['response'] handler of the SSDP client, up to the point where
    the description fetch is pending. *)
Definition on_response (p : t) (USN : string) (rinfo : RemoteInfo)
  : t * list Effect :=
  if usn_already_registered p USN then (p, [])
  else
    let p' := {| accessories := accessories p;
                 registered_usns := registered_usns p ++ [USN] |} in
    let uuid := generate USN in
    match array_find (fun a => UUID a =? uuid) (accessories p') with
    | Some existingAccessory =>
        let '(i, fx) := SomneoAccessory.constructor existingAccessory in
        (p', [LogInfo (RestoringFromCache (displayName existingAccessory));
              LogInfo (RestoringUUID uuid);
              NewSomneoAccessory i fx])
    | None =>
        (p', [LogInfo (AddingNewAccessory uuid);
              HttpGet (description_endpoint rinfo)
                {| p_uuid := uuid; p_rinfo := rinfo |}])
    end.

(** The [.catch] continuation of the description fetch. *)
Definition description_catch (p : t) (error : JsValue)
  : t * list Effect :=
  (p, [LogInfo (LoggedError error)]).

(** An exception raised inside the [parseString] callback: the callback
    runs inside the [.then] handler, the exception rejects the promise the
    handler returns, and the chained [.catch] logs it. *)
Definition callback_throws (p : t) (error : JsValue) : t * list Effect :=
  description_catch p error.

(** [new this.api.platformAccessory(displayName, uuid)]: the host's
    constructor asserts a non-empty display name and throws on a falsy
    one.  The UUID handed over is the host generator's own. *)
Definition platformAccessory_accepts (displayName : JsValue) : bool :=
  js_truthy displayName.

(** The [.then] continuation of the description fetch, with the
    [parseString] callback it runs. *)
Definition description_then (p : t) (k : Pending) (result : XmlResult)
  : t * list Effect :=
  match result with
  | NoResult | NoRoot =>
      callback_throws p (JsError "TypeError")
  | RootDevice None =>
      let '(p1, fx) := callback_throws p (JsError "TypeError") in
      (p1, LogInfo (RootDevices None) :: fx)
  | RootDevice (Some []) =>
      let '(p1, fx) := callback_throws p (JsError "TypeError") in
      (p1, LogInfo (RootDevices (Some [])) :: fx)
  | RootDevice (Some ((device0 :: _) as devices)) =>
      if platformAccessory_accepts (friendlyName device0) then
        let accessory :=
          {| displayName := friendlyName device0;
             UUID := p_uuid k;
             context := {| device := p_rinfo k; upnpData := device0 |} |}
        in
        let '(i, fx) := SomneoAccessory.constructor accessory in
        (p, [LogInfo (RootDevices (Some devices));
             NewSomneoAccessory i fx;
             RegisterPlatformAccessories PLUGIN_NAME PLATFORM_NAME
               [accessory]])
      else
        let '(p1, fx) := callback_throws p (JsError "AssertionError") in
        (p1, LogInfo (RootDevices (Some devices)) :: fx)
  end.

(** How a pending description fetch settles. *)
Inductive Settlement : Type :=
| GetRejected (error : JsValue)
| GetResolved (result : XmlResult).

(** A settlement after which no accessory exists: the request failed, the
    document did not parse, or it gave no first device entry the host
    takes an accessory for. *)
Definition is_failure (s : Settlement) : bool :=
  match s with
  | GetRejected _ => true
  | GetResolved (RootDevice (Some (device0 :: _))) =>
      negb (platformAccessory_accepts (friendlyName device0))
  | GetResolved _ => true
  end.

Definition settle (p : t) (k : Pending) (s : Settlement)
  : t * list Effect :=
  match s with
  | GetRejected error => description_catch p error
  | GetResolved result => description_then p k result
  end.

(** *** The platform in its environment

    The platform object, the description fetches in flight, and
    everything done so far. *)
Record World : Type := mkWorld {
  platform : t;
  inflight : list Pending;
  trace : list Effect
}.

Inductive Event : Type :=
| SsdpResponse (USN : string) (rinfo : RemoteInfo)
| Settled (n : nat) (s : Settlement).
    (* the n-th fetch in flight settles *)

(** A response that carries the identifier [USN] again, or any settlement. *)
Definition repeats (USN : string) (e : Event) : bool :=
  match e with
  | SsdpResponse USN' _ => USN' =? USN
  | Settled _ _ => true
  end.

Definition issued (fxs : list Effect) : list Pending :=
  flat_map (fun fx => match fx with
                      | HttpGet _ k => [k]
                      | _ => []
                      end) fxs.

Fixpoint remove_nth {A : Type} (n : nat) (l : list A) : list A :=
  match n, l with
  | _, [] => []
  | O, _ :: l' => l'
  | S n', x :: l' => x :: remove_nth n' l'
  end.

Definition step (w : World) (e : Event) : World :=
  match e with
  | SsdpResponse USN rinfo =>
      let '(p', fx) := on_response (platform w) USN rinfo in
      {| platform := p';
         inflight := inflight w ++ issued fx;
         trace := trace w ++ fx |}
  | Settled n s =>
      match nth_error (inflight w) n with
      | None => w
      | Some k =>
          let '(p', fx) := settle (platform w) k s in
          {| platform := p';
             inflight := remove_nth n (inflight w) ++ issued fx;
             trace := trace w ++ fx |}
      end
  end.

Definition run (w : World) (es : list Event) : World :=
  fold_left step es w.

(** The state in which discovery starts: the host has replayed its cache
    through [configureAccessory], nothing has been seen yet. *)
Definition launched (cached : list PlatformAccessory) : World :=
  let '(p, fx) :=
    fold_left (fun '(p, fx) a =>
                 let '(p', fx') := configureAccessory p a in
                 (p', fx ++ fx'))
              cached
              ({| accessories := []; registered_usns := [] |}, []) in
  {| platform := p; inflight := []; trace := fx |}.

(** The handler instances built so far. *)
Definition created (fxs : list Effect) : list SomneoAccessory.t :=
  flat_map (fun fx => match fx with
                      | NewSomneoAccessory i _ => [i]
                      | _ => []
                      end) fxs.

(** The accessories handed to the host so far. *)
Definition host_registered (fxs : list Effect) : list PlatformAccessory :=
  flat_map (fun fx => match fx with
                      | RegisterPlatformAccessories _ _ accs => accs
                      | _ => []
                      end) fxs.

Definition is_log (fx : Effect) : bool :=
  match fx with LogInfo _ => true | _ => false end.

End WithHost.

(** Stand-ins for the host's part, to run the platform on examples: the
    properties below hold for every choice of them. *)
Definition sample_generate (data : string) : string :=
  ("uuid-of:" ++ data)%string.

Definition sample_rinfo : RemoteInfo :=
  {| address := "192.168.1.20"; family := "IPv4"; port := 1900 |}.

Definition sample_element : DeviceElement :=
  {| friendlyName_texts := ["Somneo"];
     manufacturer_texts := ["Philips"];
     modelName_texts := ["HF3670"];
     UDN_texts := ["uuid:12345678-1234"] |}.

Definition sample_device : UpnpDevice := xml2js_device sample_element.

(** *** Observing a world *)

(** The event is a settlement, or a response with a non-empty identifier. *)
Definition truthy_usn (e : Event) : bool :=
  match e with
  | SsdpResponse USN _ => string_truthy USN
  | Settled _ _ => true
  end.

(** The identifiers carried by the responses of a sequence, in order. *)
Definition usns_of (es : list Event) : list string :=
  flat_map (fun e => match e with
                     | SsdpResponse USN _ => [USN]
                     | Settled _ _ => []
                     end) es.

(** The platform after [this.registered_usns.push(USN)]. *)
Definition record_usn (p : t) (USN : string) : t :=
  {| accessories := accessories p;
     registered_usns := registered_usns p ++ [USN] |}.

(** The accessory record the [parseString] callback builds from the closure
    [k] and the first device entry [d]. *)
Definition new_accessory (k : Pending) (d : UpnpDevice) : PlatformAccessory :=
  {| displayName := friendlyName d;
     UUID := p_uuid k;
     context := {| device := p_rinfo k; upnpData := d |} |}.

(** What is observed of a world: the platform object, the fetches in
    flight, the handlers built and the accessories handed to the host. *)
Definition observed (w : World) (p : t) (fl : list Pending)
    (cr : list SomneoAccessory.t) (hr : list PlatformAccessory) : Prop :=
  platform w = p
  /\ inflight w = fl
  /\ created (trace w) = cr
  /\ host_registered (trace w) = hr.

(** The UUIDs discovery is working on or has handed to the host. *)
Definition known_uuids (w : World) : list string :=
  map p_uuid (inflight w) ++ map UUID (host_registered (trace w)).

(** No accessory of the cache carries the UUID [u]. *)
Definition not_cached (cached : list PlatformAccessory) (u : string) : Prop :=
  array_find (fun c => UUID c =? u) cached = None.

End SomneoPlatform.

(** Case analysis on the scrutinee of the first [match] of the goal. *)
Ltac case_scrutinee :=
  match goal with
  | |- context [match ?x with _ => _ end] => destruct x eqn:?
  end.

(** * Properties of the accessory handler *)
Section AccessoryFacts.

Import SomneoAccessory.

Lemma step_keeps_readings (i : t) (e : Event) :
  overwrites_sensors e = false -> readings (fst (step i e)) = readings i.
Proof.
  destruct e as [ | [ | ? ? ? ? ] | | | | | | | ]; cbn;
    intros H; try reflexivity; discriminate H.
Qed.

Lemma run_keeps_readings (es : list Event) :
  forall i, forallb (fun e => negb (overwrites_sensors e)) es = true ->
            readings (fst (run i es)) = readings i.
Proof.
  induction es as [ | e es IH ]; intros i Hes; [ reflexivity | ].
  cbn [forallb] in Hes. apply andb_prop in Hes as [He Hes].
  apply negb_true_iff in He.
  cbn [run].
  destruct (step i e) as [i1 fx1] eqn:E1.
  destruct (run i1 es) as [i2 fx2] eqn:E2.
  cbn [fst].
  change i2 with (fst (i2, fx2)). rewrite <- E2, (IH i1 Hes).
  change i1 with (fst (i1, fx1)). rewrite <- E1.
  now apply step_keeps_readings.
Qed.

Lemma step_agree_but_Sound (i j : t) (e : Event) :
  agree_but_Sound i j ->
  snd (step i e) = snd (step j e)
  /\ agree_but_Sound (fst (step i e)) (fst (step j e)).
Proof.
  intros (Ha & Ho & Hb & Ht & Hh & Hl).
  destruct e as [ | [ | ? ? ? ? ] | | | | | | | ]; cbn;
    unfold agree_but_Sound, sensor_endpoint; cbn;
    rewrite ?Ha, ?Ho, ?Hb, ?Ht, ?Hh, ?Hl; repeat split; assumption.
Qed.

Lemma run_agree_but_Sound (es : list Event) :
  forall i j, agree_but_Sound i j -> snd (run i es) = snd (run j es).
Proof.
  induction es as [ | e es IH ]; intros i j Hij; [ reflexivity | ].
  destruct (step_agree_but_Sound i j e Hij) as [Hfx Hnext].
  specialize (IH _ _ Hnext).
  cbn [run].
  destruct (step i e) as [i1 fx1]. destruct (step j e) as [j1 gx1].
  cbn [fst snd] in *.
  destruct (run i1 es) as [i2 fx2]. destruct (run j1 es) as [j2 gx2].
  cbn [snd] in *. now subst.
Qed.

Lemma with_Sound_agrees (i : t) (v : JsValue) :
  agree_but_Sound (with_Sound i v) i.
Proof. unfold agree_but_Sound; cbn; repeat split. Qed.

Lemma step_no_timer_op (i : t) (e : Event) :
  filter is_timer_op (snd (step i e)) = [].
Proof. destruct e as [ | [ | ? ? ? ? ] | | | | | | | ]; reflexivity. Qed.

Lemma run_no_timer_op (es : list Event) :
  forall i, filter is_timer_op (snd (run i es)) = [].
Proof.
  induction es as [ | e es IH ]; intros i; [ reflexivity | ].
  cbn [run].
  pose proof (step_no_timer_op i e) as H1.
  destruct (step i e) as [i1 fx1]. specialize (IH i1).
  destruct (run i1 es) as [i2 fx2]. cbn [snd] in *.
  now rewrite filter_app, H1, IH.
Qed.

(** C8: a newly constructed accessory handler holds On = false,
    Brightness = 100 and Temperature, Humidity, LightLevel and Sound all 0,
    before any poll settles and before any write is handled. *)
Theorem C8_initial_state (a : PlatformAccessory) :
  somneoState (fst (constructor a))
  = {| On := JsBool false;
       Brightness := JsNumber 100;
       Temperature := JsNumber 0;
       Humidity := JsNumber 0;
       LightLevel := JsNumber 0;
       Sound := JsNumber 0 |}
  /\ accessory (fst (constructor a)) = a.
Proof. split; reflexivity. Qed.

(** C3: after a successful poll answering
    [{mstmp: 21.5, msrhu: 45, mslux: 120, mssnd: 0}], and whatever happens
    next short of another successful poll, a temperature read answers 21.5,
    a humidity read 45 and a light-level read 120. *)
Theorem C3_reads_after_poll (i : t) (es : list Event) :
  forallb (fun e => negb (overwrites_sensors e)) es = true ->
  let i1 := fst (step i (PollResolved sample_poll)) in
  let i2 := fst (run i1 es) in
  answered (snd (step i2 GetTemperature))
    = [(JsNull, Some (JsNumber 21.5))]
  /\ answered (snd (step i2 GetHumidity))
    = [(JsNull, Some (JsNumber 45))]
  /\ answered (snd (step i2 GetLightLevel))
    = [(JsNull, Some (JsNumber 120))].
Proof.
  intros Hes i1 i2.
  pose proof (run_keeps_readings es i1 Hes) as H.
  fold i2 in H. unfold readings in H. cbn in H.
  injection H as Ht Hh Hl.
  cbn. now rewrite Ht, Hh, Hl.
Qed.

Lemma C3_reads_after_poll_witness :
  let a := {| displayName := JsString "Somneo"; UUID := "u-1";
              context := {| device := mkRemoteInfo "192.168.1.20" "IPv4" 1900;
                            upnpData := mkUpnpDevice (JsString "Somneo")
                                          (JsString "Philips")
                                          (JsString "HF3670")
                                          (JsString "uuid:1") |} |} in
  let i := fst (constructor a) in
  let es := [GetOn; SetBrightness (JsNumber 55); PollRejected (JsError "timeout");
             TimerFired; PollResolved DataNullish; SetOn (JsBool true)] in
  let i2 := fst (run (fst (step i (PollResolved sample_poll))) es) in
  forallb (fun e => negb (overwrites_sensors e)) es = true
  /\ answered (snd (step i2 GetTemperature))
    = [(JsNull, Some (JsNumber 21.5))]
  /\ answered (snd (step i2 GetHumidity))
    = [(JsNull, Some (JsNumber 45))]
  /\ answered (snd (step i2 GetLightLevel))
    = [(JsNull, Some (JsNumber 120))].
Proof.
  intros a i es.
  split; [ reflexivity | exact (C3_reads_after_poll i es eq_refl) ].
Defined.


(** C5: a brightness write changes the Brightness field and nothing else
    (On, Temperature, Humidity, LightLevel and Sound keep their values);
    a power write changes the On field and nothing else. *)
Theorem C5_writes_touch_one_field (i : t) (value : JsValue) :
  let b := fst (step i (SetBrightness value)) in
  let o := fst (step i (SetOn value)) in
  (Brightness (somneoState b) = value
   /\ On (somneoState b) = On (somneoState i)
   /\ Temperature (somneoState b) = Temperature (somneoState i)
   /\ Humidity (somneoState b) = Humidity (somneoState i)
   /\ LightLevel (somneoState b) = LightLevel (somneoState i)
   /\ Sound (somneoState b) = Sound (somneoState i)
   /\ accessory b = accessory i)
  /\ (On (somneoState o) = value
      /\ Brightness (somneoState o) = Brightness (somneoState i)
      /\ Temperature (somneoState o) = Temperature (somneoState i)
      /\ Humidity (somneoState o) = Humidity (somneoState i)
      /\ LightLevel (somneoState o) = LightLevel (somneoState i)
      /\ Sound (somneoState o) = Sound (somneoState i)
      /\ accessory o = accessory i).
Proof. cbn. repeat split. Qed.

(** C6 (amended): the power and brightness set handlers issue no HTTP
    request; apart from writing one info line to the platform log, all they
    do is store the value and call back once with [null]. *)
Theorem C6_writes_stay_local (i : t) (value : JsValue) :
  (filter is_http_get (snd (setOn i value)) = []
   /\ filter (fun fx => negb (is_log fx)) (snd (setOn i value))
      = [Callback JsNull None]
   /\ snd (setOn i value)
      = [LogInfo [JsString "Set Characteristic On ->"; value];
         Callback JsNull None]
   /\ On (somneoState (fst (setOn i value))) = value)
  /\ (filter is_http_get (snd (setBrightness i value)) = []
      /\ filter (fun fx => negb (is_log fx)) (snd (setBrightness i value))
         = [Callback JsNull None]
      /\ snd (setBrightness i value)
         = [LogInfo [JsString "Set Characteristic Brightness -> "; value];
            Callback JsNull None]
      /\ Brightness (somneoState (fst (setBrightness i value))) = value).
Proof. cbn. repeat split. Qed.

(** C6 as the specification words it fails: the state update and the
    success callback are not the only effects of a write, each handler also
    writes a line to the log. *)
Lemma C6_log_line_counterexample :
  let i := {| accessory :=
                {| displayName := JsString "Somneo"; UUID := "u-1";
                   context :=
                     {| device := mkRemoteInfo "192.168.1.20" "IPv4" 1900;
                        upnpData := mkUpnpDevice (JsString "Somneo")
                                      (JsString "Philips")
                                      (JsString "HF3670")
                                      (JsString "uuid:1") |} |};
              somneoState := somneoState_init |} in
  (snd (setOn i (JsBool true))
   = [LogInfo [JsString "Set Characteristic On ->"; JsBool true];
      Callback JsNull None]
   /\ snd (setOn i (JsBool true)) <> [Callback JsNull None])
  /\ (snd (setBrightness i (JsNumber 55))
      = [LogInfo [JsString "Set Characteristic Brightness -> ";
                  JsNumber 55];
         Callback JsNull None]
      /\ snd (setBrightness i (JsNumber 55)) <> [Callback JsNull None]).
Proof. cbv zeta. repeat split; discriminate. Qed.

(** C9: the constructor calls the sensor refresh exactly once and then
    registers one interval timer of 60 * 1000 ms that calls it again on
    every firing; no handler ever registers another timer or clears this
    one. *)
Theorem C9_refresh_schedule (a : PlatformAccessory) :
  filter is_http_get (snd (constructor a)) = [HttpGet (sensor_endpoint a)]
  /\ filter is_timer_op (snd (constructor a)) = [SetInterval 60000]
  /\ (exists before,
        snd (constructor a)
        = before ++ snd (updateSensorData (fst (constructor a)))
                 ++ [SetInterval (60 * 1000)]
        /\ filter is_http_get before = []
        /\ filter is_timer_op before = [])
  /\ (forall i, step i TimerFired = updateSensorData i)
  /\ (forall i, snd (updateSensorData i)
                = [HttpGet (sensor_endpoint (accessory i))])
  /\ (forall es, filter is_timer_op (snd (run (fst (constructor a)) es))
                 = []).
Proof.
  repeat split; try reflexivity.
  - eexists. repeat split.
  - intros es. apply run_no_timer_op.
Qed.

(** C10: a successful poll stores [mssnd] in the Sound field, but pushes
    only temperature, humidity and light level to the characteristic
    layer; and nothing any handler does afterwards depends on the stored
    sound: replacing it by any other value leaves every effect of every
    run, read answers included, the same. *)
Theorem C10_sound_stays_inside (i : t) (mstmp msrhu mslux mssnd : JsValue) :
  let poll := step i (PollResolved (DataObject mstmp msrhu mslux mssnd)) in
  Sound (somneoState (fst poll)) = mssnd
  /\ pushed (snd poll)
     = [(TemperatureSensor, CurrentTemperature, mstmp);
        (HumiditySensor, CurrentRelativeHumidity, msrhu);
        (LightSensor, CurrentAmbientLightLevel, mslux)]
  /\ (forall other,
        snd (step i (PollResolved (DataObject mstmp msrhu mslux other)))
        = snd poll)
  /\ (forall other es,
        snd (run (with_Sound (fst poll) other) es) = snd (run (fst poll) es)).
Proof.
  cbn zeta. repeat split.
  intros other es. apply run_agree_but_Sound, with_Sound_agrees.
Qed.

End AccessoryFacts.

(** * Properties of the discovery platform *)
Section PlatformFacts.

Import SomneoPlatform.

Variable generate : string -> string.
Variables PLUGIN_NAME PLATFORM_NAME : string.

Local Abbreviation on_response := (SomneoPlatform.on_response generate).
Local Abbreviation settle :=
  (SomneoPlatform.settle PLUGIN_NAME PLATFORM_NAME).
Local Abbreviation step :=
  (SomneoPlatform.step generate PLUGIN_NAME PLATFORM_NAME).
Local Abbreviation run :=
  (SomneoPlatform.run generate PLUGIN_NAME PLATFORM_NAME).

(** *** The guard *)

Lemma find_eqb_In (USN : string) (l : list string) :
  In USN l -> array_find (fun usn => usn =? USN) l = Some USN.
Proof.
  induction l as [ | x l IH ]; intros Hin; [ destruct Hin | ].
  cbn. destruct (String.eqb_spec x USN) as [ -> | Hne ]; [ reflexivity | ].
  destruct Hin as [ Heq | Hin ]; [ contradiction | now apply IH ].
Qed.

Lemma find_eqb_Some (USN x : string) (l : list string) :
  array_find (fun usn => usn =? USN) l = Some x -> x = USN /\ In USN l.
Proof.
  intros H. apply find_some in H as [Hin Heq].
  apply String.eqb_eq in Heq. subst x. now split.
Qed.

Lemma registered_guard (p : t) (USN : string) :
  string_truthy USN = true -> In USN (registered_usns p) ->
  usn_already_registered p USN = true.
Proof.
  intros Ht Hin. unfold usn_already_registered.
  now rewrite (find_eqb_In _ _ Hin).
Qed.

Lemma guard_registered (p : t) (USN : string) :
  usn_already_registered p USN = true ->
  string_truthy USN = true /\ In USN (registered_usns p).
Proof.
  unfold usn_already_registered.
  destruct (array_find (fun usn => usn =? USN) (registered_usns p))
  as [ x | ] eqn:E; [ | discriminate ].
  apply find_eqb_Some in E as [ -> Hin ]. now split.
Qed.

Lemma empty_usn_passes_guard (p : t) :
  usn_already_registered p "" = false.
Proof.
  destruct (usn_already_registered p "") eqn:E; [ | reflexivity ].
  apply guard_registered in E as [Ht _]. discriminate Ht.
Qed.

(** *** Responses and the deduplication list *)

Lemma on_response_registered (p : t) (USN : string) (rinfo : RemoteInfo) :
  string_truthy USN = true -> In USN (registered_usns p) ->
  on_response p USN rinfo = (p, []).
Proof.
  intros Ht Hin. unfold SomneoPlatform.on_response.
  now rewrite (registered_guard p USN Ht Hin).
Qed.

Lemma on_response_platform (p : t) (USN : string) (rinfo : RemoteInfo) :
  fst (on_response p USN rinfo)
  = if usn_already_registered p USN then p
    else {| accessories := accessories p;
            registered_usns := registered_usns p ++ [USN] |}.
Proof.
  unfold SomneoPlatform.on_response.
  destruct (usn_already_registered p USN); [ reflexivity | ].
  cbn. case_scrutinee; reflexivity.
Qed.

Lemma step_response_platform (w : World) (USN : string)
    (rinfo : RemoteInfo) :
  platform (step w (SsdpResponse USN rinfo))
  = if usn_already_registered (platform w) USN then platform w
    else {| accessories := accessories (platform w);
            registered_usns := registered_usns (platform w) ++ [USN] |}.
Proof.
  rewrite <- on_response_platform with (rinfo := rinfo).
  unfold SomneoPlatform.step.
  now destruct (on_response (platform w) USN rinfo).
Qed.

Lemma settle_platform (p : t) (k : Pending) (s : Settlement) :
  fst (settle p k s) = p.
Proof.
  destruct s as [ error | [ | | [ [ | d rest ] | ] ] ]; try reflexivity.
  cbn. now destruct (platformAccessory_accepts (friendlyName d)).
Qed.

Lemma step_registered (w : World) (USN : string) (rinfo : RemoteInfo) :
  string_truthy USN = true -> In USN (registered_usns (platform w)) ->
  step w (SsdpResponse USN rinfo) = w.
Proof.
  intros Ht Hin. destruct w as [p fl tr]. cbn in *.
  rewrite (on_response_registered p USN rinfo Ht Hin).
  cbn. now rewrite !app_nil_r.
Qed.

Lemma step_keeps_registered (w : World) (e : Event) (USN : string) :
  In USN (registered_usns (platform w)) ->
  In USN (registered_usns (platform (step w e))).
Proof.
  intros Hin. destruct e as [ USN' rinfo | n s ]; cbn.
  - pose proof (on_response_platform (platform w) USN' rinfo) as H.
    destruct (on_response (platform w) USN' rinfo) as [p' fx].
    cbn in H |- *. subst p'.
    destruct (usn_already_registered (platform w) USN');
      [ assumption | cbn; apply in_or_app; now left ].
  - destruct (nth_error (inflight w) n) as [ k | ]; [ | assumption ].
    pose proof (settle_platform (platform w) k s) as H.
    destruct (settle (platform w) k s) as [p' fx].
    cbn in H |- *. now subst p'.
Qed.

Lemma run_keeps_registered (es : list Event) :
  forall (w : World) (USN : string),
    In USN (registered_usns (platform w)) ->
    In USN (registered_usns (platform (run w es))).
Proof.
  induction es as [ | e es IH ]; intros w USN Hin; [ assumption | ].
  cbn. apply IH. now apply step_keeps_registered.
Qed.

(** Deduplication as the handler implements it: once a non-empty
    identifier is on the list, every later response carrying it changes
    nothing, whatever happened in between. *)
Lemma later_response_skipped (w : World) (USN : string) (es : list Event)
    (rinfo : RemoteInfo) :
  string_truthy USN = true -> In USN (registered_usns (platform w)) ->
  step (run w es) (SsdpResponse USN rinfo) = run w es.
Proof.
  intros Ht Hin. apply step_registered; [ assumption | ].
  now apply run_keeps_registered.
Qed.

Lemma response_records_usn (w : World) (USN : string) (rinfo : RemoteInfo) :
  string_truthy USN = true ->
  In USN (registered_usns (platform (step w (SsdpResponse USN rinfo)))).
Proof.
  intros Ht. cbn.
  pose proof (on_response_platform (platform w) USN rinfo) as H.
  destruct (on_response (platform w) USN rinfo) as [p' fx].
  cbn in H |- *. subst p'.
  destruct (usn_already_registered (platform w) USN) eqn:E.
  - now apply guard_registered in E.
  - cbn. apply in_or_app. right. now left.
Qed.

(** With nothing in flight, repeating a recorded identifier gets nowhere. *)
Lemma repeats_change_nothing (USN : string) (es : list Event) :
  forall w : World,
    string_truthy USN = true -> In USN (registered_usns (platform w)) ->
    inflight w = [] ->
    forallb (repeats USN) es = true ->
    run w es = w.
Proof.
  induction es as [ | e es IH ]; intros w Ht Hin Hfl Hes; [ reflexivity | ].
  cbn [forallb] in Hes. apply andb_prop in Hes as [He Hes].
  assert (Hstep : step w e = w).
  { destruct e as [ USN' rinfo | n s ]; cbn in He.
    - apply String.eqb_eq in He. subst USN'. now apply step_registered.
    - unfold SomneoPlatform.step. rewrite Hfl. now destruct n. }
  unfold SomneoPlatform.run. cbn [fold_left]. rewrite Hstep.
  now apply IH.
Qed.

(** *** Fetches in flight *)

Lemma nth_error_last {A : Type} (l : list A) (x : A) :
  nth_error (l ++ [x]) (List.length l) = Some x.
Proof. induction l as [ | y l IH ]; [ reflexivity | exact IH ]. Qed.

Lemma remove_nth_last {A : Type} (l : list A) (x : A) :
  remove_nth (List.length l) (l ++ [x]) = l.
Proof.
  induction l as [ | y l IH ]; [ reflexivity | ].
  cbn. now rewrite IH.
Qed.

Lemma created_app (l l' : list Effect) :
  created (l ++ l') = created l ++ created l'.
Proof. apply flat_map_app. Qed.

Lemma host_registered_app (l l' : list Effect) :
  host_registered (l ++ l') = host_registered l ++ host_registered l'.
Proof. apply flat_map_app. Qed.

(** A response that passes the guard for a device the cache does not
    know: the identifier is recorded and one fetch is put in flight. *)
Lemma step_fresh_response (w : World) (USN : string) (rinfo : RemoteInfo) :
  usn_already_registered (platform w) USN = false ->
  array_find (fun a => UUID a =? generate USN) (accessories (platform w))
    = None ->
  step w (SsdpResponse USN rinfo)
  = {| platform := {| accessories := accessories (platform w);
                      registered_usns :=
                        registered_usns (platform w) ++ [USN] |};
       inflight := inflight w
                   ++ [{| p_uuid := generate USN; p_rinfo := rinfo |}];
       trace := trace w
                ++ [LogInfo (AddingNewAccessory (generate USN));
                    HttpGet (description_endpoint rinfo)
                      {| p_uuid := generate USN; p_rinfo := rinfo |}] |}.
Proof.
  intros Hg Hc. unfold SomneoPlatform.step, SomneoPlatform.on_response.
  rewrite Hg. cbv zeta. cbn [accessories]. rewrite Hc. reflexivity.
Qed.

(** A failed settlement does nothing but, at most, write to the log. *)
Lemma settle_failure (p : t) (k : Pending) (s : Settlement) :
  is_failure s = true ->
  fst (settle p k s) = p
  /\ forallb is_log (snd (settle p k s)) = true.
Proof.
  destruct s as [ error | [ | | [ [ | d rest ] | ] ] ]; cbn;
    try (intros _; now split).
  destruct (platformAccessory_accepts (friendlyName d));
    intros H; [ discriminate H | now split ].
Qed.

(** A failed settlement ends in the log line of its error. *)
Lemma settle_failure_logged (p : t) (k : Pending) (s : Settlement) :
  is_failure s = true ->
  exists before error,
    snd (settle p k s) = before ++ [LogInfo (LoggedError error)].
Proof.
  destruct s as [ error | [ | | [ [ | d rest ] | ] ] ]; cbn.
  - intros _. now exists [], error.
  - intros _. now exists [], (JsError "TypeError").
  - intros _. now exists [], (JsError "TypeError").
  - intros _.
    now exists [LogInfo (RootDevices (Some []))], (JsError "TypeError").
  - destruct (platformAccessory_accepts (friendlyName d));
      intros H; [ discriminate H | ].
    now exists [LogInfo (RootDevices (Some (d :: rest)))],
               (JsError "AssertionError").
  - intros _.
    now exists [LogInfo (RootDevices None)], (JsError "TypeError").
Qed.

Lemma only_logs (fx : list Effect) :
  forallb is_log fx = true ->
  issued fx = [] /\ created fx = [] /\ host_registered fx = [].
Proof.
  induction fx as [ | [ line | i ifx | endpoint k | pn pl accs ] fx IH ];
    cbn; intros H; try discriminate H; auto.
Qed.

(** The last fetch put in flight settles in failure: it leaves the list of
    fetches, and the log may grow; nothing else moves. *)
Lemma step_settle_failure (w : World) (k : Pending) (s : Settlement) :
  is_failure s = true ->
  let w1 := {| platform := platform w;
               inflight := inflight w ++ [k];
               trace := trace w |} in
  step w1 (Settled (List.length (inflight w)) s)
  = {| platform := platform w;
       inflight := inflight w;
       trace := trace w ++ snd (settle (platform w) k s) |}.
Proof.
  intros Hs w1.
  destruct (settle_failure (platform w) k s Hs) as [Hp Hl].
  unfold SomneoPlatform.step, w1. cbn [inflight platform trace].
  rewrite nth_error_last, remove_nth_last.
  destruct (settle (platform w) k s) as [p' fx]. cbn [fst snd] in *.
  destruct (only_logs fx Hl) as (Hi & _ & _).
  now rewrite Hi, app_nil_r, Hp.
Qed.

(** C1 (where the guard falls short): the guard tests the string that [find]
    hands back, so the empty identifier, although recorded, is never found
    to be registered.  A second response carrying it is handled like the
    first: it is recorded again and discovery runs again, down to a second
    accessory registered under the same UUID whenever the description
    names the device (a first entry whose friendlyName the host accepts as
    display name). *)
Theorem C1_empty_usn_handled_again (w : World) (rinfo rinfo' : RemoteInfo)
    (d : UpnpDevice) :
  platformAccessory_accepts (friendlyName d) = true ->
  (let w1 := step w (SsdpResponse "" rinfo) in
   let w2 := step w1 (SsdpResponse "" rinfo') in
   In "" (registered_usns (platform w1))
   /\ usn_already_registered (platform w1) "" = false
   /\ registered_usns (platform w2) = registered_usns (platform w1) ++ [""])
  /\ (let ok := GetResolved (RootDevice (Some [d])) in
      let w1 := step (launched []) (SsdpResponse "" rinfo) in
      let w2 := step w1 (SsdpResponse "" rinfo') in
      let w4 := run w2 [Settled 0 ok; Settled 0 ok] in
      registered_usns (platform w1) = [""]
      /\ registered_usns (platform w2) = [""; ""]
      /\ inflight w1 = [{| p_uuid := generate ""; p_rinfo := rinfo |}]
      /\ inflight w2 = [{| p_uuid := generate ""; p_rinfo := rinfo |};
                        {| p_uuid := generate ""; p_rinfo := rinfo' |}]
      /\ map UUID (host_registered (trace w4)) = [generate ""; generate ""]
      /\ List.length (created (trace w4)) = 2%nat).
Proof.
  intros Hd. split.
  - cbv zeta. split; [ | split ].
    + rewrite step_response_platform, empty_usn_passes_guard.
      cbn. apply in_or_app. right. now left.
    + apply empty_usn_passes_guard.
    + now rewrite step_response_platform, empty_usn_passes_guard.
  - cbv zeta. unfold SomneoPlatform.run.
    cbn [fold_left SomneoPlatform.step SomneoPlatform.on_response
         launched configureAccessory usn_already_registered array_find
         find registered_usns accessories platform inflight trace app
         issued flat_map nth_error remove_nth SomneoPlatform.settle
         SomneoPlatform.description_then String.eqb string_truthy negb].
    rewrite Hd.
    cbn [SomneoAccessory.constructor SomneoAccessory.updateSensorData
         platform inflight trace app issued flat_map nth_error remove_nth
         SomneoPlatform.settle SomneoPlatform.description_then].
    repeat split.
Qed.

(** C2 (amended): when the description fetch or the XML parse fails, no
    accessory is created or registered for that response and the failure
    is only logged - every effect of the failed settlement is a log line,
    the last of them the error; but the identifier was recorded before the
    fetch was issued and stays recorded, so every later response carrying
    the same non-empty identifier is skipped and starts no new fetch. *)
Theorem C2_failed_fetch_consumes_usn (w : World) (USN : string)
    (rinfo : RemoteInfo) (s : Settlement) :
  string_truthy USN = true ->
  usn_already_registered (platform w) USN = false ->
  array_find (fun a => UUID a =? generate USN) (accessories (platform w))
    = None ->
  is_failure s = true ->
  let w1 := step w (SsdpResponse USN rinfo) in
  let w2 := step w1 (Settled (List.length (inflight w)) s) in
  created (trace w2) = created (trace w)
  /\ host_registered (trace w2) = host_registered (trace w)
  /\ (exists before error,
        trace w2 = trace w1 ++ before ++ [LogInfo (LoggedError error)]
        /\ forallb is_log before = true
        /\ forall rejection, s = GetRejected rejection ->
                             before = [] /\ error = rejection)
  /\ platform w2 = platform w1
  /\ inflight w2 = inflight w
  /\ In USN (registered_usns (platform w2))
  /\ (forall es rinfo',
        step (run w2 es) (SsdpResponse USN rinfo') = run w2 es).
Proof.
  intros Ht Hg Hc Hs w1 w2.
  assert (Hin : In USN (registered_usns (platform w1)))
    by (apply response_records_usn; exact Ht).
  subst w2. unfold w1 in *. clear w1.
  rewrite (step_fresh_response w USN rinfo Hg Hc) in *.
  set (k := {| p_uuid := generate USN; p_rinfo := rinfo |}) in *.
  set (p1 := {| accessories := accessories (platform w);
                registered_usns := registered_usns (platform w) ++ [USN] |})
    in *.
  set (tr1 := trace w ++ [LogInfo (AddingNewAccessory (generate USN));
                          HttpGet (description_endpoint rinfo) k]) in *.
  pose proof (step_settle_failure
                {| platform := p1; inflight := inflight w; trace := tr1 |}
                k s Hs) as Hstep.
  cbn [platform inflight trace] in Hstep. rewrite Hstep.
  destruct (settle_failure p1 k s Hs) as [_ Hl].
  set (logged := snd (settle p1 k s)) in *.
  destruct (only_logs logged Hl) as (_ & Hcr & Hreg).
  cbn [platform inflight trace] in *.
  split; [ | split; [ | split; [ | repeat split ] ] ].
  - unfold tr1. now rewrite !created_app, Hcr, !app_nil_r.
  - unfold tr1. now rewrite !host_registered_app, Hreg, !app_nil_r.
  - destruct (settle_failure_logged p1 k s Hs) as (before & error & Hlog).
    exists before, error. fold logged in Hlog.
    split; [ now rewrite <- Hlog | split ].
    + rewrite Hlog, forallb_app in Hl. now apply andb_prop in Hl.
    + intros rejection ->. cbn in Hlog.
      destruct before as [ | fx [ | fx' before ] ]; cbn in Hlog;
        [ | discriminate Hlog | discriminate Hlog ].
      injection Hlog as ->. now split.
  - exact Hin.
  - intros es rinfo'. now apply later_response_skipped.
Qed.

(** C7 (where the code falls short): the claim wants the display name to
    be the string "Somneo".  The callback indexes [device[0]] but hands
    [friendlyName] over as the parser delivers it, a one-element array: for
    a response that passes the guard for a device the cache does not know,
    whose description has a first device entry with the single friendlyName
    "Somneo", the accessory created and registered has the array
    ["Somneo"] as display name, not the string. *)
Theorem C7_display_name_is_array (w : World) (USN : string)
    (rinfo : RemoteInfo) (e : DeviceElement) (rest : list UpnpDevice) :
  usn_already_registered (platform w) USN = false ->
  array_find (fun a => UUID a =? generate USN) (accessories (platform w))
    = None ->
  friendlyName_texts e = ["Somneo"] ->
  let w1 := step w (SsdpResponse USN rinfo) in
  let w2 := step w1 (Settled (List.length (inflight w))
                       (GetResolved
                          (RootDevice (Some (xml2js_device e :: rest)))))
  in
  exists a,
    host_registered (trace w2) = host_registered (trace w) ++ [a]
    /\ created (trace w2)
       = created (trace w) ++ [fst (SomneoAccessory.constructor a)]
    /\ displayName a = JsArray [JsString "Somneo"]
    /\ displayName a <> JsString "Somneo"
    /\ UUID a = generate USN
    /\ context a = {| device := rinfo; upnpData := xml2js_device e |}.
Proof.
  intros Hg Hc Hname w1 w2.
  set (d := xml2js_device e) in *.
  assert (Hd : friendlyName d = JsArray [JsString "Somneo"])
    by (unfold d, xml2js_device; cbn [friendlyName]; now rewrite Hname).
  exists {| displayName := friendlyName d; UUID := generate USN;
            context := {| device := rinfo; upnpData := d |} |}.
  subst w2. unfold w1. clear w1.
  rewrite (step_fresh_response w USN rinfo Hg Hc).
  unfold SomneoPlatform.step. cbn [inflight platform trace].
  rewrite nth_error_last, remove_nth_last.
  cbn [SomneoPlatform.settle SomneoPlatform.description_then p_uuid p_rinfo].
  replace (platformAccessory_accepts (friendlyName d)) with true
    by now rewrite Hd.
  rewrite (surjective_pairing (SomneoAccessory.constructor _)).
  cbn [trace].
  rewrite !host_registered_app, !created_app.
  cbn [host_registered created flat_map app displayName].
  rewrite !app_nil_r, Hd. repeat split. discriminate.
Qed.

End PlatformFacts.

(** The examples below run the platform with [sample_generate] for the
    host's UUID generator and sample plugin and platform names. *)

Lemma C2_failed_fetch_consumes_usn_witness :
  let USN := "uuid:somneo-1" in
  let s := SomneoPlatform.GetResolved SomneoPlatform.NoResult in
  let step := SomneoPlatform.step SomneoPlatform.sample_generate
                "homebridge-philips-somneo" "PhilipsSomneo" in
  let run := SomneoPlatform.run SomneoPlatform.sample_generate
               "homebridge-philips-somneo" "PhilipsSomneo" in
  let w := SomneoPlatform.launched [] in
  let w1 := step w (SomneoPlatform.SsdpResponse USN
                      SomneoPlatform.sample_rinfo) in
  let w2 := step w1 (SomneoPlatform.Settled 0 s) in
  SomneoPlatform.created (SomneoPlatform.trace w2) = []
  /\ SomneoPlatform.host_registered (SomneoPlatform.trace w2) = []
  /\ (exists before error,
        SomneoPlatform.trace w2
        = SomneoPlatform.trace w1
          ++ before
          ++ [SomneoPlatform.LogInfo (SomneoPlatform.LoggedError error)])
  /\ In USN (SomneoPlatform.registered_usns (SomneoPlatform.platform w2))
  /\ (forall es rinfo',
        step (run w2 es) (SomneoPlatform.SsdpResponse USN rinfo')
        = run w2 es).
Proof.
  intros USN s step run w w1 w2.
  destruct (C2_failed_fetch_consumes_usn SomneoPlatform.sample_generate
              "homebridge-philips-somneo" "PhilipsSomneo"
              w USN SomneoPlatform.sample_rinfo s
              eq_refl eq_refl eq_refl eq_refl)
    as (Hc & Hr & (before & error & Hlog & _) & _ & _ & Hin & Hskip).
  repeat split; try assumption.
  now exists before, error.
Defined.

Lemma C1_empty_usn_handled_again_witness :
  let step := SomneoPlatform.step SomneoPlatform.sample_generate
                "homebridge-philips-somneo" "PhilipsSomneo" in
  let run := SomneoPlatform.run SomneoPlatform.sample_generate
               "homebridge-philips-somneo" "PhilipsSomneo" in
  let ok := SomneoPlatform.GetResolved
              (SomneoPlatform.RootDevice
                 (Some [SomneoPlatform.sample_device])) in
  let w1 := step (SomneoPlatform.launched [])
                 (SomneoPlatform.SsdpResponse ""
                    SomneoPlatform.sample_rinfo) in
  let w2 := step w1 (SomneoPlatform.SsdpResponse ""
                       SomneoPlatform.sample_rinfo) in
  let w4 := run w2 [SomneoPlatform.Settled 0 ok;
                    SomneoPlatform.Settled 0 ok] in
  SomneoPlatform.platformAccessory_accepts
    (friendlyName SomneoPlatform.sample_device) = true
  /\ SomneoPlatform.registered_usns (SomneoPlatform.platform w2) = [""; ""]
  /\ map UUID (SomneoPlatform.host_registered (SomneoPlatform.trace w4))
     = ["uuid-of:"; "uuid-of:"].
Proof.
  intros step run ok w1 w2 w4. split; [ reflexivity | ].
  destruct (C1_empty_usn_handled_again SomneoPlatform.sample_generate
              "homebridge-philips-somneo" "PhilipsSomneo"
              (SomneoPlatform.launched []) SomneoPlatform.sample_rinfo
              SomneoPlatform.sample_rinfo SomneoPlatform.sample_device
              eq_refl)
    as (_ & _ & Hregs & _ & _ & Huuids & _).
  split; assumption.
Defined.

(** C2 as the specification words it fails: after a failed fetch, responses
    repeating the identifier, and whatever settlements the environment may
    deliver, leave the world as the failure left it - nothing in flight, no
    accessory created, none registered. *)
Lemma C2_no_retry_counterexample :
  let USN := "uuid:somneo-1" in
  let step := SomneoPlatform.step SomneoPlatform.sample_generate
                "homebridge-philips-somneo" "PhilipsSomneo" in
  let w1 := step (SomneoPlatform.launched [])
                 (SomneoPlatform.SsdpResponse USN
                    SomneoPlatform.sample_rinfo) in
  let w2 := step w1 (SomneoPlatform.Settled 0
                       (SomneoPlatform.GetRejected (JsError "ECONNREFUSED")))
  in
  let w3 := step w2 (SomneoPlatform.SsdpResponse USN
                       SomneoPlatform.sample_rinfo) in
  SomneoPlatform.inflight w1
    = [{| SomneoPlatform.p_uuid := "uuid-of:uuid:somneo-1";
          SomneoPlatform.p_rinfo := SomneoPlatform.sample_rinfo |}]
  /\ SomneoPlatform.registered_usns (SomneoPlatform.platform w2) = [USN]
  /\ w3 = w2
  /\ SomneoPlatform.inflight w3 = []
  /\ SomneoPlatform.created (SomneoPlatform.trace w3) = []
  /\ SomneoPlatform.host_registered (SomneoPlatform.trace w3) = []
  /\ (forall es,
        forallb (SomneoPlatform.repeats USN) es = true ->
        SomneoPlatform.run SomneoPlatform.sample_generate
          "homebridge-philips-somneo" "PhilipsSomneo" w2 es = w2).
Proof.
  cbv zeta. repeat split.
  intros es Hes. apply repeats_change_nothing with (USN := "uuid:somneo-1").
  - reflexivity.
  - now left.
  - reflexivity.
  - exact Hes.
Qed.

Lemma C7_display_name_is_array_witness :
  let step := SomneoPlatform.step SomneoPlatform.sample_generate
                "homebridge-philips-somneo" "PhilipsSomneo" in
  let w := SomneoPlatform.launched [] in
  let w1 := step w (SomneoPlatform.SsdpResponse "uuid:somneo-1"
                      SomneoPlatform.sample_rinfo) in
  let w2 := step w1 (SomneoPlatform.Settled 0
                       (SomneoPlatform.GetResolved
                          (SomneoPlatform.RootDevice
                             (Some [SomneoPlatform.xml2js_device
                                      SomneoPlatform.sample_element])))) in
  SomneoPlatform.friendlyName_texts SomneoPlatform.sample_element
  = ["Somneo"]
  /\ exists a,
      SomneoPlatform.host_registered (SomneoPlatform.trace w2) = [a]
      /\ displayName a = JsArray [JsString "Somneo"]
      /\ displayName a <> JsString "Somneo".
Proof.
  intros step w w1 w2. split; [ reflexivity | ].
  destruct (C7_display_name_is_array SomneoPlatform.sample_generate
              "homebridge-philips-somneo" "PhilipsSomneo"
              w "uuid:somneo-1" SomneoPlatform.sample_rinfo
              SomneoPlatform.sample_element []
              eq_refl eq_refl eq_refl)
    as (a & Hreg & _ & Hname & Hneq & _).
  exists a. repeat split; assumption.
Defined.

(** * Further properties of the accessory handler *)
Section AccessoryRuns.

Import SomneoAccessory.

(** [run] one event at a time. *)
Lemma run_cons (i : t) (e : Event) (es : list Event) :
  run i (e :: es)
  = (fst (run (fst (step i e)) es),
     snd (step i e) ++ snd (run (fst (step i e)) es)).
Proof.
  cbn [run]. destruct (step i e) as [i1 fx1].
  cbn [fst snd]. now destruct (run i1 es).
Qed.

Lemma step_keeps_accessory (i : t) (e : Event) :
  accessory (fst (step i e)) = accessory i.
Proof. destruct e as [ | [ | ? ? ? ? ] | | | | | | | ]; reflexivity. Qed.

Lemma step_keeps_On (i : t) (e : Event) :
  writes_On e = false ->
  On (somneoState (fst (step i e))) = On (somneoState i).
Proof.
  destruct e as [ | [ | ? ? ? ? ] | | | | | | | ]; cbn;
    intros H; try reflexivity; discriminate H.
Qed.

Lemma run_keeps_On (es : list Event) :
  forall i, forallb (fun e => negb (writes_On e)) es = true ->
            On (somneoState (fst (run i es))) = On (somneoState i).
Proof.
  induction es as [ | e es IH ]; intros i Hes; [ reflexivity | ].
  cbn [forallb] in Hes. apply andb_prop in Hes as [He Hes].
  apply negb_true_iff in He.
  rewrite run_cons. cbn [fst].
  rewrite (IH _ Hes). now apply step_keeps_On.
Qed.

(** X1: a power read answers the value of the last power write, whatever
    that value is and whatever happened since, short of another power
    write. *)
Theorem X1_power_read_after_write (i : t) (value : JsValue)
    (es : list Event) :
  forallb (fun e => negb (writes_On e)) es = true ->
  let i1 := fst (step i (SetOn value)) in
  let i2 := fst (run i1 es) in
  answered (snd (step i2 GetOn)) = [(JsNull, Some value)]
  /\ fst (step i2 GetOn) = i2.
Proof.
  intros Hes i1 i2. split; [ | reflexivity ].
  cbn. unfold i2. now rewrite (run_keeps_On es i1 Hes).
Qed.

Lemma X1_power_read_after_write_witness :
  let i := fst (constructor
                  {| displayName := JsString "Somneo"; UUID := "u-1";
                     context :=
                       {| device := mkRemoteInfo "192.168.1.20" "IPv4" 1900;
                          upnpData := mkUpnpDevice (JsString "Somneo")
                                        (JsString "Philips")
                                        (JsString "HF3670")
                                        (JsString "uuid:1") |} |}) in
  let es := [SetBrightness (JsNumber 55); PollResolved sample_poll;
             GetOn; TimerFired; PollRejected (JsError "timeout")] in
  let i2 := fst (run (fst (step i (SetOn (JsNumber 1)))) es) in
  forallb (fun e => negb (writes_On e)) es = true
  /\ answered (snd (step i2 GetOn)) = [(JsNull, Some (JsNumber 1))].
Proof.
  intros i es i2. split; [ reflexivity | ].
  exact (proj1 (X1_power_read_after_write i (JsNumber 1) es eq_refl)).
Defined.

(** X2: after any sequence of events each field holds its last write: On
    the last power write, Brightness the last brightness write, and the four
    sensor fields, together, the body of the last poll that delivered an
    object; a field nothing wrote keeps its value, and the accessory record
    is never replaced. *)
Theorem X2_last_write_wins (es : list Event) (i : t) :
  let st := somneoState i in
  let st' := somneoState (fst (run i es)) in
  On st' = last_SetOn es (On st)
  /\ Brightness st' = last_SetBrightness es (Brightness st)
  /\ (Temperature st', Humidity st', LightLevel st', Sound st')
     = last_poll es (Temperature st, Humidity st, LightLevel st, Sound st)
  /\ accessory (fst (run i es)) = accessory i.
Proof.
  revert i. induction es as [ | e es IH ]; intros i; [ now cbn | ].
  cbv zeta in *. rewrite run_cons. cbn [fst].
  destruct (IH (fst (step i e))) as (Ho & Hb & Hp & Ha).
  rewrite Ho, Hb, Hp, Ha.
  unfold last_SetOn, last_SetBrightness, last_poll. cbn [fold_left].
  destruct e as [ | [ | ? ? ? ? ] | | | | | | | ]; cbn; repeat split.
Qed.

Lemma step_agree_but_Brightness (i j : t) (e : Event) :
  agree_but_Brightness i j ->
  snd (step i e) = snd (step j e)
  /\ agree_but_Brightness (fst (step i e)) (fst (step j e)).
Proof.
  intros (Ha & Ho & Ht & Hh & Hl & Hs).
  destruct e as [ | [ | ? ? ? ? ] | | | | | | | ]; cbn;
    unfold agree_but_Brightness, sensor_endpoint; cbn;
    rewrite ?Ha, ?Ho, ?Ht, ?Hh, ?Hl, ?Hs; repeat split; assumption.
Qed.

Lemma run_agree_but_Brightness (es : list Event) :
  forall i j, agree_but_Brightness i j -> snd (run i es) = snd (run j es).
Proof.
  induction es as [ | e es IH ]; intros i j Hij; [ reflexivity | ].
  destruct (step_agree_but_Brightness i j e Hij) as [Hfx Hnext].
  rewrite !run_cons. cbn [snd].
  now rewrite Hfx, (IH _ _ Hnext).
Qed.

(** X3: the stored brightness is write-only.  The constructor registers a
    set handler for Brightness and no get handler, and nothing any handler
    does depends on the stored value: replacing it by any other value leaves
    every effect of every run the same. *)
Theorem X3_brightness_is_write_only (a : PlatformAccessory) (i : t)
    (other : JsValue) (es : list Event) :
  filter (fun fx => match fx with
                    | RegisterHandler _ CBrightness _ => true
                    | _ => false
                    end) (snd (constructor a))
  = [RegisterHandler Lightbulb CBrightness OnSet]
  /\ snd (run (with_Brightness i other) es) = snd (run i es).
Proof.
  split; [ reflexivity | ].
  apply run_agree_but_Brightness.
  unfold agree_but_Brightness; cbn; repeat split.
Qed.

Lemma answered_app (l l' : list Effect) :
  answered (l ++ l') = answered l ++ answered l'.
Proof. apply flat_map_app. Qed.

(** X4: every get or set request of the host is answered exactly once, and
    always with a null error; timer firings and poll settlements call nothing
    back.  So over any run there are as many callbacks as requests, none of
    them reporting a failure. *)
Theorem X4_every_request_answered (es : list Event) (i : t) :
  map fst (answered (snd (run i es)))
  = repeat JsNull (List.length (filter is_request es)).
Proof.
  revert i. induction es as [ | e es IH ]; intros i; [ reflexivity | ].
  rewrite run_cons. cbn [snd].
  rewrite answered_app, map_app, IH.
  destruct e as [ | [ | ? ? ? ? ] | | | | | | | ]; reflexivity.
Qed.

(** X5: the device is asked for its sensors once per timer firing and at no
    other occasion, always at the endpoint of the address the accessory was
    built with. *)
Theorem X5_one_request_per_firing (es : list Event) (i : t) :
  filter is_http_get (snd (run i es))
  = repeat (HttpGet (sensor_endpoint (accessory i)))
           (List.length (filter is_timer es)).
Proof.
  revert i. induction es as [ | e es IH ]; intros i; [ reflexivity | ].
  rewrite run_cons. cbn [snd].
  rewrite filter_app, IH, step_keeps_accessory.
  destruct e as [ | [ | ? ? ? ? ] | | | | | | | ]; reflexivity.
Qed.

(** X6: whatever a successful poll delivers - a key missing from the body
    reads [undefined] - the values it pushes to the temperature, humidity
    and light-level characteristics are the values the three read handlers
    answer from then on, until the next successful poll. *)
Theorem X6_pushed_is_what_reads_answer (i : t)
    (mstmp msrhu mslux mssnd : JsValue) (es : list Event) :
  forallb (fun e => negb (overwrites_sensors e)) es = true ->
  let poll := step i (PollResolved (DataObject mstmp msrhu mslux mssnd)) in
  let i2 := fst (run (fst poll) es) in
  map snd (pushed (snd poll)) = [mstmp; msrhu; mslux]
  /\ map snd (answered (snd (run i2 [GetTemperature; GetHumidity;
                                     GetLightLevel])))
     = [Some mstmp; Some msrhu; Some mslux].
Proof.
  intros Hes poll i2. split; [ reflexivity | ].
  pose proof (run_keeps_readings es (fst poll) Hes) as H.
  fold i2 in H. unfold readings in H. cbn in H.
  injection H as Ht Hh Hl.
  cbn. now rewrite Ht, Hh, Hl.
Qed.

Lemma X6_pushed_is_what_reads_answer_witness :
  let i := fst (constructor
                  {| displayName := JsString "Somneo"; UUID := "u-1";
                     context :=
                       {| device := mkRemoteInfo "192.168.1.20" "IPv4" 1900;
                          upnpData := mkUpnpDevice (JsString "Somneo")
                                        (JsString "Philips")
                                        (JsString "HF3670")
                                        (JsString "uuid:1") |} |}) in
  let es := [SetOn (JsBool true); PollResolved DataNullish; TimerFired] in
  let poll := step i (PollResolved
                        (DataObject (JsNumber 19) JsUndefined (JsNumber 3)
                           JsUndefined)) in
  let i2 := fst (run (fst poll) es) in
  forallb (fun e => negb (overwrites_sensors e)) es = true
  /\ map snd (answered (snd (run i2 [GetTemperature; GetHumidity;
                                     GetLightLevel])))
     = [Some (JsNumber 19); Some JsUndefined; Some (JsNumber 3)].
Proof.
  intros i es poll i2. split; [ reflexivity | ].
  exact (proj2 (X6_pushed_is_what_reads_answer i (JsNumber 19) JsUndefined
                  (JsNumber 3) JsUndefined es eq_refl)).
Defined.

End AccessoryRuns.

(** * Further properties of the discovery platform *)
Section PlatformRuns.

Import SomneoPlatform.

Variable generate : string -> string.
Variables PLUGIN_NAME PLATFORM_NAME : string.

Local Abbreviation on_response := (SomneoPlatform.on_response generate).
Local Abbreviation settle :=
  (SomneoPlatform.settle PLUGIN_NAME PLATFORM_NAME).
Local Abbreviation step :=
  (SomneoPlatform.step generate PLUGIN_NAME PLATFORM_NAME).
Local Abbreviation run :=
  (SomneoPlatform.run generate PLUGIN_NAME PLATFORM_NAME).

(** *** Invariants of runs *)

Lemma run_invariant_on (Q : Event -> bool) (P : World -> Prop) :
  (forall w e, Q e = true -> P w -> P (step w e)) ->
  forall es w, forallb Q es = true -> P w -> P (run w es).
Proof.
  intros Hstep. induction es as [ | e es IH ]; intros w Hes Hw;
    [ exact Hw | ].
  cbn [forallb] in Hes. apply andb_prop in Hes as [He Hes].
  unfold SomneoPlatform.run. cbn [fold_left].
  apply IH; [ exact Hes | now apply Hstep ].
Qed.

Lemma run_invariant (P : World -> Prop) :
  (forall w e, P w -> P (step w e)) ->
  forall es w, P w -> P (run w es).
Proof.
  intros Hstep es w Hw.
  apply (run_invariant_on (fun _ => true) P); auto.
  now apply forallb_forall.
Qed.

Lemma run_snoc (w : World) (es : list Event) (e : Event) :
  run w (es ++ [e]) = step (run w es) e.
Proof. unfold SomneoPlatform.run. now rewrite fold_left_app. Qed.

(** *** The cases of a step *)

Lemma guard_false_fresh (p : t) (USN : string) :
  string_truthy USN = true -> usn_already_registered p USN = false ->
  ~ In USN (registered_usns p).
Proof.
  intros Ht Hg Hin. rewrite (registered_guard p USN Ht Hin) in Hg.
  discriminate Hg.
Qed.

Lemma step_skipped (w : World) (USN : string) (rinfo : RemoteInfo) :
  usn_already_registered (platform w) USN = true ->
  step w (SsdpResponse USN rinfo) = w.
Proof.
  intros Hg. apply guard_registered in Hg as [Ht Hin].
  now apply step_registered.
Qed.

Lemma step_restore (w : World) (USN : string) (rinfo : RemoteInfo)
    (a : PlatformAccessory) :
  usn_already_registered (platform w) USN = false ->
  array_find (fun a => UUID a =? generate USN) (accessories (platform w))
    = Some a ->
  step w (SsdpResponse USN rinfo)
  = {| platform := record_usn (platform w) USN;
       inflight := inflight w;
       trace := trace w
                ++ [LogInfo (RestoringFromCache (displayName a));
                    LogInfo (RestoringUUID (generate USN));
                    NewSomneoAccessory
                      (fst (SomneoAccessory.constructor a))
                      (snd (SomneoAccessory.constructor a))] |}.
Proof.
  intros Hg Hc. unfold SomneoPlatform.step, SomneoPlatform.on_response.
  rewrite Hg. cbv zeta. cbn [accessories]. rewrite Hc.
  rewrite (surjective_pairing (SomneoAccessory.constructor a)).
  cbn [issued flat_map app fst snd]. now rewrite app_nil_r.
Qed.

Lemma step_settle_none (w : World) (n : nat) (s : Settlement) :
  nth_error (inflight w) n = None -> step w (Settled n s) = w.
Proof. intros H. unfold SomneoPlatform.step. now rewrite H. Qed.

Lemma step_settle_fail (w : World) (n : nat) (s : Settlement)
    (k : Pending) :
  nth_error (inflight w) n = Some k -> is_failure s = true ->
  step w (Settled n s)
  = {| platform := platform w;
       inflight := remove_nth n (inflight w);
       trace := trace w ++ snd (settle (platform w) k s) |}.
Proof.
  intros Hn Hs. unfold SomneoPlatform.step. rewrite Hn.
  destruct (settle_failure PLUGIN_NAME PLATFORM_NAME (platform w) k s Hs)
    as [Hp Hl].
  destruct (settle (platform w) k s) as [p' fx]. cbn [fst snd] in *.
  destruct (only_logs fx Hl) as (Hi & _ & _).
  now rewrite Hi, app_nil_r, Hp.
Qed.

Lemma step_settle_ok (w : World) (n : nat) (k : Pending) (d : UpnpDevice)
    (rest : list UpnpDevice) :
  nth_error (inflight w) n = Some k ->
  platformAccessory_accepts (friendlyName d) = true ->
  step w (Settled n (GetResolved (RootDevice (Some (d :: rest)))))
  = {| platform := platform w;
       inflight := remove_nth n (inflight w);
       trace := trace w
                ++ [LogInfo (RootDevices (Some (d :: rest)));
                    NewSomneoAccessory
                      (fst (SomneoAccessory.constructor (new_accessory k d)))
                      (snd (SomneoAccessory.constructor (new_accessory k d)));
                    RegisterPlatformAccessories PLUGIN_NAME PLATFORM_NAME
                      [new_accessory k d]] |}.
Proof.
  intros Hn Hd. unfold SomneoPlatform.step. rewrite Hn.
  cbn [SomneoPlatform.settle SomneoPlatform.description_then].
  rewrite Hd. fold (new_accessory k d).
  rewrite (surjective_pairing
             (SomneoAccessory.constructor (new_accessory k d))).
  cbn [issued flat_map app fst snd]. now rewrite app_nil_r.
Qed.

(** Every step is of one of five kinds: nothing happens; a cached accessory
    is restored; a fetch is put in flight; a fetch fails; a fetch delivers
    a first device entry. *)
Lemma step_observed (w : World) (e : Event) :
  step w e = w
  \/ (exists USN rinfo a,
        e = SsdpResponse USN rinfo
        /\ usn_already_registered (platform w) USN = false
        /\ array_find (fun a => UUID a =? generate USN)
             (accessories (platform w)) = Some a
        /\ observed (step w e)
             (record_usn (platform w) USN) (inflight w)
             (created (trace w) ++ [fst (SomneoAccessory.constructor a)])
             (host_registered (trace w)))
  \/ (exists USN rinfo,
        e = SsdpResponse USN rinfo
        /\ usn_already_registered (platform w) USN = false
        /\ array_find (fun a => UUID a =? generate USN)
             (accessories (platform w)) = None
        /\ observed (step w e)
             (record_usn (platform w) USN)
             (inflight w ++ [{| p_uuid := generate USN; p_rinfo := rinfo |}])
             (created (trace w)) (host_registered (trace w)))
  \/ (exists n s k,
        e = Settled n s
        /\ nth_error (inflight w) n = Some k
        /\ is_failure s = true
        /\ observed (step w e)
             (platform w) (remove_nth n (inflight w))
             (created (trace w)) (host_registered (trace w)))
  \/ (exists n k d,
        (exists rest,
            e = Settled n (GetResolved (RootDevice (Some (d :: rest))))
            /\ platformAccessory_accepts (friendlyName d) = true)
        /\ nth_error (inflight w) n = Some k
        /\ observed (step w e)
             (platform w) (remove_nth n (inflight w))
             (created (trace w)
                ++ [fst (SomneoAccessory.constructor (new_accessory k d))])
             (host_registered (trace w) ++ [new_accessory k d])).
Proof.
  destruct e as [ USN rinfo | n s ].
  - destruct (usn_already_registered (platform w) USN) eqn:Hg.
    + left. now apply step_skipped.
    + destruct (array_find (fun a => UUID a =? generate USN)
                  (accessories (platform w))) as [ a | ] eqn:Hc.
      * right; left. exists USN, rinfo, a.
        rewrite (step_restore w USN rinfo a Hg Hc).
        unfold observed. cbn [platform inflight trace].
        rewrite created_app, host_registered_app.
        cbn [created host_registered flat_map app].
        rewrite ?app_nil_r. repeat split; assumption.
      * right; right; left. exists USN, rinfo.
        rewrite (step_fresh_response generate PLUGIN_NAME PLATFORM_NAME
                   w USN rinfo Hg Hc).
        unfold observed, record_usn. cbn [platform inflight trace].
        rewrite created_app, host_registered_app.
        cbn [created host_registered flat_map app].
        rewrite ?app_nil_r. repeat split; assumption.
  - destruct (nth_error (inflight w) n) as [ k | ] eqn:Hn.
    + destruct (is_failure s) eqn:Hs.
      * right; right; right; left. exists n, s, k.
        rewrite (step_settle_fail w n s k Hn Hs).
        destruct (settle_failure PLUGIN_NAME PLATFORM_NAME
                    (platform w) k s Hs) as [_ Hl].
        destruct (only_logs _ Hl) as (_ & Hcr & Hhr).
        unfold observed. cbn [platform inflight trace].
        rewrite created_app, host_registered_app, Hcr, Hhr, !app_nil_r.
        repeat split; assumption.
      * right; right; right; right.
        destruct s as [ error | [ | | [ [ | d rest ] | ] ] ];
          try discriminate Hs.
        cbn in Hs. apply negb_false_iff in Hs.
        exists n, k, d. split; [ now exists rest | ].
        rewrite (step_settle_ok w n k d rest Hn Hs).
        unfold observed. cbn [platform inflight trace].
        rewrite created_app, host_registered_app.
        cbn [created host_registered flat_map app].
        rewrite ?app_nil_r. repeat split; assumption.
    + left. now apply step_settle_none.
Qed.

(** *** Lists with one position removed *)

Lemma remove_nth_incl {A : Type} (n : nat) (l : list A) :
  incl (remove_nth n l) l.
Proof.
  revert n. induction l as [ | x l IH ]; intros n; [ now destruct n | ].
  destruct n as [ | n ]; cbn.
  - now apply incl_tl, incl_refl.
  - apply incl_cons; [ now left | ]. now apply incl_tl.
Qed.

Lemma remove_nth_perm {A : Type} (n : nat) (l : list A) (x : A) :
  nth_error l n = Some x -> Permutation l (x :: remove_nth n l).
Proof.
  revert n. induction l as [ | y l IH ]; intros n Hn;
    [ now destruct n | ].
  destruct n as [ | n ]; cbn in *.
  - injection Hn as ->. apply Permutation_refl.
  - apply perm_trans with (y :: x :: remove_nth n l);
      [ apply perm_skip; now apply IH | apply perm_swap ].
Qed.

Lemma Forall_remove_nth {A : Type} (P : A -> Prop) (n : nat) (l : list A) :
  Forall P l -> Forall P (remove_nth n l).
Proof.
  intros H. apply Forall_forall. intros x Hx.
  rewrite Forall_forall in H. now apply H, (remove_nth_incl n l).
Qed.

(** *** The cache *)

Lemma replay_cache (cached : list PlatformAccessory) :
  forall (p : t) (fx : list Effect),
    fold_left (fun '(p, fx) a =>
                 let '(p', fx') := configureAccessory p a in
                 (p', fx ++ fx'))
              cached (p, fx)
    = ({| accessories := accessories p ++ cached;
          registered_usns := registered_usns p |},
       fx ++ map (fun a => LogInfo (LoadingFromCache (displayName a)))
                 cached).
Proof.
  induction cached as [ | a cached IH ]; intros p fx.
  - cbn. rewrite !app_nil_r. now destruct p.
  - cbn [fold_left configureAccessory]. rewrite IH.
    cbn [accessories registered_usns map].
    now rewrite <- !app_assoc.
Qed.

Lemma launched_world (cached : list PlatformAccessory) :
  launched cached
  = {| platform := {| accessories := cached; registered_usns := [] |};
       inflight := [];
       trace := map (fun a => LogInfo (LoadingFromCache (displayName a)))
                    cached |}.
Proof. unfold launched. now rewrite replay_cache. Qed.

Lemma created_only_logs (cached : list PlatformAccessory) :
  created (map (fun a => LogInfo (LoadingFromCache (displayName a))) cached)
  = []
  /\ host_registered
       (map (fun a => LogInfo (LoadingFromCache (displayName a))) cached)
     = [].
Proof. induction cached as [ | a cached [IH1 IH2] ]; now split. Qed.

Lemma step_keeps_accessories (w : World) (e : Event) :
  accessories (platform (step w e)) = accessories (platform w).
Proof.
  destruct (step_observed w e)
    as [ H | [ (USN & rinfo & a & _ & _ & _ & Hp & _)
           | [ (USN & rinfo & _ & _ & _ & Hp & _)
             | [ (n & s & k & _ & _ & _ & Hp & _)
               | (n & k & d & _ & _ & Hp & _) ] ] ] ];
    rewrite ?H, ?Hp; reflexivity.
Qed.

Lemma run_keeps_accessories (es : list Event) (w : World) :
  accessories (platform (run w es)) = accessories (platform w).
Proof.
  apply (run_invariant
           (fun w' => accessories (platform w') = accessories (platform w)));
    [ | reflexivity ].
  intros w' e Hw'. now rewrite step_keeps_accessories.
Qed.

(** X7: before discovery starts, the platform holds the accessories the
    host replayed from its cache, in the order of replay, with one log line
    each and no identifier recorded; and discovery never adds to this list
    nor removes from it - an accessory created during the session is not
    on it. *)
Theorem X7_cache_replayed_and_kept (cached : list PlatformAccessory)
    (es : list Event) :
  platform (launched cached)
  = {| accessories := cached; registered_usns := [] |}
  /\ trace (launched cached)
     = map (fun a => LogInfo (LoadingFromCache (displayName a))) cached
  /\ inflight (launched cached) = []
  /\ accessories (platform (run (launched cached) es)) = cached.
Proof.
  rewrite run_keeps_accessories, launched_world. now repeat split.
Qed.

(** *** The list of recorded identifiers *)

Lemma step_appends_usn (w : World) (e : Event) :
  exists more,
    registered_usns (platform (step w e))
    = registered_usns (platform w) ++ more
    /\ incl more (usns_of [e]).
Proof.
  destruct (step_observed w e)
    as [ H | [ (USN & rinfo & a & -> & _ & _ & Hp & _)
           | [ (USN & rinfo & -> & _ & _ & Hp & _)
             | [ (n & s & k & _ & _ & _ & Hp & _)
               | (n & k & d & _ & _ & Hp & _) ] ] ] ];
    rewrite ?H, ?Hp.
  - exists []. split; [ now rewrite app_nil_r | easy ].
  - exists [USN]. split; [ reflexivity | apply incl_refl ].
  - exists [USN]. split; [ reflexivity | apply incl_refl ].
  - exists []. split; [ now rewrite app_nil_r | easy ].
  - exists []. split; [ now rewrite app_nil_r | easy ].
Qed.

(** X8: the list of recorded identifiers only ever grows at its end, and
    only by identifiers that responses carried: nothing removes or reorders
    an entry for as long as the process lives. *)
Theorem X8_recorded_usns_only_grow (es : list Event) (w : World) :
  exists more,
    registered_usns (platform (run w es))
    = registered_usns (platform w) ++ more
    /\ incl more (usns_of es).
Proof.
  revert w. induction es as [ | e es IH ]; intros w.
  - exists []. split; [ now rewrite app_nil_r | easy ].
  - destruct (step_appends_usn w e) as (m1 & H1 & I1).
    destruct (IH (step w e)) as (m2 & H2 & I2).
    exists (m1 ++ m2). unfold SomneoPlatform.run in *. cbn [fold_left].
    rewrite H2, H1, app_assoc. split; [ reflexivity | ].
    assert (Hsplit : usns_of (e :: es) = usns_of [e] ++ usns_of es)
      by (change (e :: es) with ([e] ++ es); apply flat_map_app).
    rewrite Hsplit.
    apply incl_app; [ now apply incl_appl | now apply incl_appr ].
Qed.

(** X9: once a response with a non-empty identifier has been handled, every
    later response carrying that identifier - whatever was received or
    settled in between, and whether the first attempt restored, created or
    failed - changes nothing at all: no entry, no fetch, no handler, no log
    line. *)
Theorem X9_repeated_identifier_is_skipped (w : World) (USN : string)
    (rinfo rinfo' : RemoteInfo) (es : list Event) :
  string_truthy USN = true ->
  let w1 := step w (SsdpResponse USN rinfo) in
  step (run w1 es) (SsdpResponse USN rinfo') = run w1 es
  /\ run w1 (es ++ [SsdpResponse USN rinfo']) = run w1 es.
Proof.
  intros Ht w1.
  assert (H : step (run w1 es) (SsdpResponse USN rinfo') = run w1 es).
  { apply later_response_skipped; [ exact Ht | ].
    now apply response_records_usn. }
  split; [ exact H | now rewrite run_snoc ].
Qed.

Lemma step_keeps_NoDup (w : World) (e : Event) :
  truthy_usn e = true ->
  NoDup (registered_usns (platform w)) ->
  NoDup (registered_usns (platform (step w e))).
Proof.
  intros He Hnd.
  assert (Hadd : forall USN,
             string_truthy USN = true ->
             usn_already_registered (platform w) USN = false ->
             NoDup (registered_usns (record_usn (platform w) USN))).
  { intros USN Ht Hg. cbn.
    apply (Permutation_NoDup (l := USN :: registered_usns (platform w)));
      [ apply Permutation_cons_append | ].
    constructor; [ now apply guard_false_fresh | exact Hnd ]. }
  destruct (step_observed w e)
    as [ H | [ (USN & rinfo & a & -> & Hg & _ & Hp & _)
           | [ (USN & rinfo & -> & Hg & _ & Hp & _)
             | [ (n & s & k & _ & _ & _ & Hp & _)
               | (n & k & d & _ & _ & Hp & _) ] ] ] ];
    rewrite ?H, ?Hp; auto.
Qed.

(** X10: as long as the responses carry non-empty identifiers, no
    identifier is ever recorded twice. *)
Theorem X10_recorded_usns_distinct (cached : list PlatformAccessory)
    (es : list Event) :
  forallb truthy_usn es = true ->
  NoDup (registered_usns (platform (run (launched cached) es))).
Proof.
  intros Hes.
  apply (run_invariant_on truthy_usn
           (fun w => NoDup (registered_usns (platform w)))).
  - intros w e. apply step_keeps_NoDup.
  - exact Hes.
  - rewrite launched_world. constructor.
Qed.

(** X11: a response that passes the guard for a device the cache knows
    builds a handler on the cached accessory - the first one of the cache
    carrying the derived UUID - and does nothing more: no description is
    fetched and nothing is handed to the host. *)
Theorem X11_restore_from_cache (w : World) (USN : string)
    (rinfo : RemoteInfo) (a : PlatformAccessory) :
  usn_already_registered (platform w) USN = false ->
  array_find (fun a => UUID a =? generate USN) (accessories (platform w))
    = Some a ->
  let w1 := step w (SsdpResponse USN rinfo) in
  In a (accessories (platform w))
  /\ UUID a = generate USN
  /\ created (trace w1)
     = created (trace w) ++ [fst (SomneoAccessory.constructor a)]
  /\ inflight w1 = inflight w
  /\ host_registered (trace w1) = host_registered (trace w)
  /\ registered_usns (platform w1) = registered_usns (platform w) ++ [USN].
Proof.
  intros Hg Hc w1. unfold w1.
  rewrite (step_restore w USN rinfo a Hg Hc).
  cbn [platform inflight trace].
  rewrite created_app, host_registered_app.
  cbn [created host_registered flat_map app]. rewrite ?app_nil_r.
  apply find_some in Hc as [Hin Hu]. apply String.eqb_eq in Hu.
  repeat split; assumption.
Qed.

(** *** UUIDs *)

(** What discovery is working on, and what it has handed to the host, is
    unknown to the cache. *)
Lemma step_keeps_not_cached (cached : list PlatformAccessory) (w : World)
    (e : Event) :
  accessories (platform w) = cached
  /\ Forall (fun k => not_cached cached (p_uuid k)) (inflight w)
  /\ Forall (fun a => not_cached cached (UUID a))
       (host_registered (trace w)) ->
  accessories (platform (step w e)) = cached
  /\ Forall (fun k => not_cached cached (p_uuid k)) (inflight (step w e))
  /\ Forall (fun a => not_cached cached (UUID a))
       (host_registered (trace (step w e))).
Proof.
  intros (Ha & Hfl & Hhr).
  split; [ now rewrite step_keeps_accessories | ].
  destruct (step_observed w e)
    as [ H | [ (USN & rinfo & a & _ & _ & _ & _ & Hi & _ & Hr)
           | [ (USN & rinfo & _ & _ & Hc & _ & Hi & _ & Hr)
             | [ (n & s & k & _ & _ & _ & _ & Hi & _ & Hr)
               | (n & k & d & _ & Hn & _ & Hi & _ & Hr) ] ] ] ];
    rewrite ?H, ?Hi, ?Hr.
  - now split.
  - now split.
  - split; [ | exact Hhr ].
    apply Forall_app. split; [ exact Hfl | ].
    constructor; [ | constructor ]. cbn. now rewrite <- Ha.
  - split; [ now apply Forall_remove_nth | exact Hhr ].
  - split; [ now apply Forall_remove_nth | ].
    apply Forall_app. split; [ exact Hhr | ].
    constructor; [ | constructor ]. cbn.
    rewrite Forall_forall in Hfl. apply Hfl.
    now apply nth_error_In with n.
Qed.

(** X12: discovery never hands the host an accessory whose UUID the cache
    already holds: the host is told about a device only if no restored
    accessory carries the UUID derived for it. *)
Theorem X12_registered_are_not_cached (cached : list PlatformAccessory)
    (es : list Event) :
  Forall (fun a => not_cached cached (UUID a))
         (host_registered (trace (run (launched cached) es))).
Proof.
  apply (run_invariant
           (fun w =>
              accessories (platform w) = cached
              /\ Forall (fun k => not_cached cached (p_uuid k)) (inflight w)
              /\ Forall (fun a => not_cached cached (UUID a))
                   (host_registered (trace w)))).
  - intros w e. apply step_keeps_not_cached.
  - rewrite launched_world. cbn [platform accessories inflight trace].
    rewrite (proj2 (created_only_logs cached)). now repeat split.
Qed.

Lemma step_keeps_known_distinct (w : World) (e : Event) :
  (forall a b, generate a = generate b -> a = b) ->
  truthy_usn e = true ->
  NoDup (registered_usns (platform w))
  /\ NoDup (known_uuids w)
  /\ Forall (fun u => exists USN,
                 In USN (registered_usns (platform w)) /\ u = generate USN)
       (known_uuids w) ->
  NoDup (registered_usns (platform (step w e)))
  /\ NoDup (known_uuids (step w e))
  /\ Forall (fun u => exists USN,
                 In USN (registered_usns (platform (step w e)))
                 /\ u = generate USN)
       (known_uuids (step w e)).
Proof.
  intros Hinj He (Hnd & Hk & Hfrom).
  split; [ now apply step_keeps_NoDup | ].
  assert (Hgrow : forall u,
             (exists USN, In USN (registered_usns (platform w))
                          /\ u = generate USN) ->
             exists USN, In USN (registered_usns (platform (step w e)))
                         /\ u = generate USN).
  { intros u (USN & Hin & ->). exists USN. split; [ | reflexivity ].
    destruct (step_appends_usn w e) as (more & -> & _).
    apply in_or_app. now left. }
  unfold known_uuids in *.
  destruct (step_observed w e)
    as [ H | [ (USN & rinfo & a & _ & _ & _ & _ & Hi & _ & Hr)
           | [ (USN & rinfo & -> & Hg & _ & Hp & Hi & _ & Hr)
             | [ (n & s & k & _ & Hn & _ & _ & Hi & _ & Hr)
               | (n & k & d & _ & Hn & _ & Hi & _ & Hr) ] ] ] ].
  - rewrite H. now split.
  - rewrite Hi, Hr. split; [ exact Hk | ].
    now apply Forall_impl with (2 := Hfrom).
  - rewrite Hi, Hr, map_app. cbn [map p_uuid].
    set (old := map p_uuid (inflight w)) in *.
    set (reg := map UUID (host_registered (trace w))) in *.
    assert (Hperm : Permutation (generate USN :: old ++ reg)
                                ((old ++ [generate USN]) ++ reg)).
    { rewrite <- app_assoc. apply Permutation_middle. }
    split.
    + apply (Permutation_NoDup Hperm). constructor; [ | exact Hk ].
      intros Hin. rewrite Forall_forall in Hfrom.
      destruct (Hfrom _ Hin) as (USN' & Hin' & Heq).
      apply Hinj in Heq. subst USN'.
      now apply (guard_false_fresh (platform w) USN He Hg).
    + apply (Permutation_Forall Hperm). constructor.
      * exists USN. split; [ | reflexivity ].
        rewrite Hp. cbn. apply in_or_app. right. now left.
      * now apply Forall_impl with (2 := Hfrom).
  - rewrite Hi, Hr.
    set (reg := map UUID (host_registered (trace w))) in *.
    assert (Hperm : Permutation (map p_uuid (inflight w) ++ reg)
                      (p_uuid k
                       :: map p_uuid (remove_nth n (inflight w)) ++ reg)).
    { change (p_uuid k :: map p_uuid (remove_nth n (inflight w)) ++ reg)
        with (map p_uuid (k :: remove_nth n (inflight w)) ++ reg).
      apply Permutation_app_tail, Permutation_map.
      now apply remove_nth_perm. }
    split.
    + apply (Permutation_NoDup Hperm) in Hk. now inversion Hk.
    + apply (Permutation_Forall Hperm) in Hfrom.
      inversion Hfrom; subst.
      now apply Forall_impl with (P := fun u =>
        exists USN, In USN (registered_usns (platform w))
                    /\ u = generate USN).
  - rewrite Hi, Hr, map_app. cbn [map new_accessory UUID].
    set (reg := map UUID (host_registered (trace w))) in *.
    assert (Hperm : Permutation (map p_uuid (inflight w) ++ reg)
                      (map p_uuid (remove_nth n (inflight w))
                       ++ reg ++ [p_uuid k])).
    { apply perm_trans
        with (map p_uuid (k :: remove_nth n (inflight w)) ++ reg).
      - apply Permutation_app_tail, Permutation_map.
        now apply remove_nth_perm.
      - cbn [map app]. rewrite app_assoc.
        apply Permutation_cons_append. }
    split.
    + now apply (Permutation_NoDup Hperm).
    + apply (Permutation_Forall Hperm).
      now apply Forall_impl with (2 := Hfrom).
Qed.

(** X13: when the host's generator maps distinct identifiers to distinct
    UUIDs and the responses carry non-empty identifiers, no two accessories
    handed to the host share a UUID, however responses and settlements
    interleave. *)
Theorem X13_registered_uuids_distinct (cached : list PlatformAccessory)
    (es : list Event) :
  (forall a b, generate a = generate b -> a = b) ->
  forallb truthy_usn es = true ->
  NoDup (map UUID (host_registered (trace (run (launched cached) es)))).
Proof.
  intros Hinj Hes.
  apply (NoDup_app_remove_l
           (map p_uuid (inflight (run (launched cached) es)))).
  fold (known_uuids (run (launched cached) es)).
  apply (run_invariant_on truthy_usn
           (fun w =>
              NoDup (registered_usns (platform w))
              /\ NoDup (known_uuids w)
              /\ Forall (fun u => exists USN,
                             In USN (registered_usns (platform w))
                             /\ u = generate USN)
                   (known_uuids w))
           (fun w e => step_keeps_known_distinct w e Hinj)
           es (launched cached) Hes).
  rewrite launched_world. unfold known_uuids.
  cbn [platform registered_usns inflight trace map app].
  rewrite (proj2 (created_only_logs cached)).
  repeat split; constructor.
Qed.

Lemma step_keeps_handled (w : World) (e : Event) :
  Forall (fun a =>
            displayName a = friendlyName (upnpData (context a))
            /\ In (fst (SomneoAccessory.constructor a)) (created (trace w)))
         (host_registered (trace w)) ->
  Forall (fun a =>
            displayName a = friendlyName (upnpData (context a))
            /\ In (fst (SomneoAccessory.constructor a))
                 (created (trace (step w e))))
         (host_registered (trace (step w e))).
Proof.
  intros Hall.
  destruct (step_observed w e)
    as [ H | [ (USN & rinfo & a & _ & _ & _ & _ & _ & Hc & Hr)
           | [ (USN & rinfo & _ & _ & _ & _ & _ & Hc & Hr)
             | [ (n & s & k & _ & _ & _ & _ & _ & Hc & Hr)
               | (n & k & d & _ & _ & _ & _ & Hc & Hr) ] ] ] ];
    rewrite ?H, ?Hc, ?Hr; try exact Hall.
  - apply Forall_impl with (2 := Hall). intros x [Hn Hin].
    split; [ exact Hn | apply in_or_app; now left ].
  - apply Forall_app. split.
    + apply Forall_impl with (2 := Hall). intros x [Hn Hin].
      split; [ exact Hn | apply in_or_app; now left ].
    + constructor; [ | constructor ].
      split; [ reflexivity | apply in_or_app; right; now left ].
Qed.

(** X14: every accessory handed to the host has had its handler built, is
    named after the friendlyName of the device entry kept in its context,
    and that handler named the light-bulb service by the same display
    name. *)
Theorem X14_registered_are_handled (cached : list PlatformAccessory)
    (es : list Event) :
  let w := run (launched cached) es in
  Forall (fun a =>
            In (fst (SomneoAccessory.constructor a)) (created (trace w))
            /\ displayName a = friendlyName (upnpData (context a))
            /\ In (SomneoAccessory.SetCharacteristic
                     SomneoAccessory.Lightbulb SomneoAccessory.Name
                     (displayName a))
                 (snd (SomneoAccessory.constructor a)))
         (host_registered (trace w)).
Proof.
  intros w.
  assert (H : Forall (fun a =>
                        displayName a = friendlyName (upnpData (context a))
                        /\ In (fst (SomneoAccessory.constructor a))
                             (created (trace w)))
                     (host_registered (trace w))).
  { apply (run_invariant
             (fun w =>
                Forall (fun a =>
                          displayName a
                          = friendlyName (upnpData (context a))
                          /\ In (fst (SomneoAccessory.constructor a))
                               (created (trace w)))
                       (host_registered (trace w)))
             step_keeps_handled).
    rewrite launched_world. cbn [trace].
    rewrite (proj2 (created_only_logs cached)). constructor. }
  apply Forall_impl with (2 := H). intros a [Hn Hin].
  split; [ exact Hin | split; [ exact Hn | ] ].
  rewrite Hn. cbn. do 5 right. now left.
Qed.

End PlatformRuns.

Lemma sample_generate_injective (a b : string) :
  SomneoPlatform.sample_generate a = SomneoPlatform.sample_generate b ->
  a = b.
Proof. unfold SomneoPlatform.sample_generate. cbn. congruence. Qed.

Lemma X9_repeated_identifier_is_skipped_witness :
  let USN := "uuid:somneo-1" in
  let step := SomneoPlatform.step SomneoPlatform.sample_generate
                "homebridge-philips-somneo" "PhilipsSomneo" in
  let run := SomneoPlatform.run SomneoPlatform.sample_generate
               "homebridge-philips-somneo" "PhilipsSomneo" in
  let w1 := step (SomneoPlatform.launched [])
                 (SomneoPlatform.SsdpResponse USN
                    SomneoPlatform.sample_rinfo) in
  let es := [SomneoPlatform.SsdpResponse "uuid:other"
               SomneoPlatform.sample_rinfo;
             SomneoPlatform.Settled 0
               (SomneoPlatform.GetResolved
                  (SomneoPlatform.RootDevice
                     (Some [SomneoPlatform.sample_device])))] in
  string_truthy USN = true
  /\ step (run w1 es)
          (SomneoPlatform.SsdpResponse USN SomneoPlatform.sample_rinfo)
     = run w1 es.
Proof.
  intros USN step run w1 es. split; [ reflexivity | ].
  exact (proj1 (X9_repeated_identifier_is_skipped
                  SomneoPlatform.sample_generate
                  "homebridge-philips-somneo" "PhilipsSomneo"
                  (SomneoPlatform.launched []) USN
                  SomneoPlatform.sample_rinfo SomneoPlatform.sample_rinfo
                  es eq_refl)).
Defined.

Lemma X10_recorded_usns_distinct_witness :
  let es := [SomneoPlatform.SsdpResponse "uuid:somneo-1"
               SomneoPlatform.sample_rinfo;
             SomneoPlatform.SsdpResponse "uuid:somneo-2"
               SomneoPlatform.sample_rinfo;
             SomneoPlatform.SsdpResponse "uuid:somneo-1"
               SomneoPlatform.sample_rinfo] in
  forallb SomneoPlatform.truthy_usn es = true
  /\ NoDup (SomneoPlatform.registered_usns
              (SomneoPlatform.platform
                 (SomneoPlatform.run SomneoPlatform.sample_generate
                    "homebridge-philips-somneo" "PhilipsSomneo"
                    (SomneoPlatform.launched []) es))).
Proof.
  intros es. split; [ reflexivity | ].
  exact (X10_recorded_usns_distinct SomneoPlatform.sample_generate
           "homebridge-philips-somneo" "PhilipsSomneo" [] es eq_refl).
Defined.

Lemma X11_restore_from_cache_witness :
  let a := {| displayName := JsString "Somneo";
              UUID := "uuid-of:uuid:somneo-1";
              context := {| device := SomneoPlatform.sample_rinfo;
                            upnpData := SomneoPlatform.sample_device |} |} in
  let w := SomneoPlatform.launched [a] in
  let w1 := SomneoPlatform.step SomneoPlatform.sample_generate
              "homebridge-philips-somneo" "PhilipsSomneo" w
              (SomneoPlatform.SsdpResponse "uuid:somneo-1"
                 SomneoPlatform.sample_rinfo) in
  SomneoPlatform.usn_already_registered (SomneoPlatform.platform w)
    "uuid:somneo-1" = false
  /\ SomneoPlatform.created (SomneoPlatform.trace w1)
     = [fst (SomneoAccessory.constructor a)]
  /\ SomneoPlatform.inflight w1 = []
  /\ SomneoPlatform.host_registered (SomneoPlatform.trace w1) = [].
Proof.
  intros a w w1. split; [ reflexivity | ].
  destruct (X11_restore_from_cache SomneoPlatform.sample_generate
              "homebridge-philips-somneo" "PhilipsSomneo"
              w "uuid:somneo-1" SomneoPlatform.sample_rinfo a
              eq_refl eq_refl)
    as (_ & _ & Hc & Hi & Hr & _).
  repeat split; assumption.
Defined.

Lemma X13_registered_uuids_distinct_witness :
  let ok := SomneoPlatform.GetResolved
              (SomneoPlatform.RootDevice
                 (Some [SomneoPlatform.sample_device])) in
  let es := [SomneoPlatform.SsdpResponse "uuid:somneo-1"
               SomneoPlatform.sample_rinfo;
             SomneoPlatform.SsdpResponse "uuid:somneo-2"
               SomneoPlatform.sample_rinfo;
             SomneoPlatform.SsdpResponse "uuid:somneo-1"
               SomneoPlatform.sample_rinfo;
             SomneoPlatform.Settled 1 ok;
             SomneoPlatform.Settled 0 ok] in
  forallb SomneoPlatform.truthy_usn es = true
  /\ NoDup (map UUID
              (SomneoPlatform.host_registered
                 (SomneoPlatform.trace
                    (SomneoPlatform.run SomneoPlatform.sample_generate
                       "homebridge-philips-somneo" "PhilipsSomneo"
                       (SomneoPlatform.launched []) es)))).
Proof.
  intros ok es. split; [ reflexivity | ].
  exact (X13_registered_uuids_distinct SomneoPlatform.sample_generate
           "homebridge-philips-somneo" "PhilipsSomneo" [] es
           sample_generate_injective eq_refl).
Defined.
